(** * Crontinuous: entry tables, bulk upsert and scheduler registration

    A shallow embedding of the orchestrator of vulcan-crontinuous
    (crontinuous.go, scan_cron.go, report_cron.go, cron_store.go) and the
    properties of its public operations: Start, BulkCreate, SaveEntry,
    GetEntries, GetEntryByID and RemoveEntry.

    The Go maps are finite maps [gmap string _]; a method with receiver
    [c *Crontinuous] is a function from the state [c] to its results and
    the new state.  The collaborators the orchestrator only holds through
    an interface or a library handle (the cron parser, the persistence
    store, the order in which [range] visits a map) are the fields of
    type classes, so every theorem holds for all of them. *)

From Stdlib Require Import ZArith.
From stdpp Require Import gmap strings list fin_maps.

Open Scope Z_scope.

(** ** Errors *)

(** The sentinel errors of crontinuous.go.  [External] stands for the errors
    that come from a collaborator (the store, the cron parser): they are
    returned as they are and are never one of the package's sentinels
    ([errTeamNotWhitelisted] is unexported). *)
Inductive error : Type :=
| ErrScheduleNotFound
| ErrMalformedSchedule
| ErrMalformedEntry
| ErrInvalidCronType
| errTeamNotWhitelisted
| External (msg : string).

(** [errors.Is(err, errTeamNotWhitelisted)]. *)
Definition is_errTeamNotWhitelisted (err : error) : bool :=
  match err with
  | errTeamNotWhitelisted => true
  | _ => false
  end.

(** ** Data model *)

(** [type CronType int] with [ScanCronType = iota] and [ReportCronType]. *)
Definition CronType : Type := Z.
Definition ScanCronType : CronType := 0.
Definition ReportCronType : CronType := 1.

Record Config : Type := {
  Bucket : string;
  EnableTeamsWhitelistScan : bool;
  TeamsWhitelistScan : list string;
  EnableTeamsWhitelistReport : bool;
  TeamsWhitelistReport : list string
}.

Record ScanEntry : Type := {
  ProgramID : string;
  TeamID : string;
  CronSpec : string
}.

(** The fields of [ReportEntry] are [TeamID] and [CronSpec] in the source;
    they are prefixed here because [ScanEntry] has fields of the same
    names. *)
Record ReportEntry : Type := {
  ReportTeamID : string;
  ReportCronSpec : string
}.

(** The interface [CronEntry] with its two implementors. *)
Inductive CronEntry : Type :=
| OfScan (e : ScanEntry)
| OfReport (e : ReportEntry).

Definition GetID (e : CronEntry) : string :=
  match e with
  | OfScan se => ProgramID se
  | OfReport re => ReportTeamID re
  end.

Definition GetCronSpec (e : CronEntry) : string :=
  match e with
  | OfScan se => CronSpec se
  | OfReport re => ReportCronSpec re
  end.

(** The jobs [&scanJob{...}] and [&reportJob{...}]; their [scanCreator],
    [reportSender] and [log] fields are the orchestrator's own
    collaborators and carry no information. *)
Inductive Job : Type :=
| scanJob (programID teamID : string)
| reportJob (teamID : string).

(** ** Collaborators *)

(** [cron.Schedule] and [cron.ParseStandard] of the cron library. *)
Class CronParser : Type := {
  Schedule : Type;
  ParseStandard : string → string + Schedule
}.

(** The interfaces [ScanCronStore] and [ReportCronStore].  [Store] is the
    state of the storage behind them; every method may change it and may
    fail with an error of its own. *)
Class CronStore : Type := {
  Store : Type;
  GetScanEntries : Store → (string + gmap string ScanEntry) * Store;
  SaveScanEntries : gmap string ScanEntry → Store → option string * Store;
  GetReportEntries : Store → (string + gmap string ReportEntry) * Store;
  SaveReportEntries : gmap string ReportEntry → Store → option string * Store
}.

(** The order in which [for _, e := range m] visits a Go map is not
    specified: [range] is any enumeration of the map's bindings. *)
Class MapRange : Type := {
  range : ∀ A : Type, gmap string A → list (string * A);
  range_perm : ∀ (A : Type) (m : gmap string A), range A m ≡ₚ map_to_list m
}.
Arguments range {_ _} _.

(** The scheduler [*cron.Cron] is a library object; the model keeps the
    calls it has received since [cron.New()], oldest first. *)
Inductive CronCall `{CronParser} : Type :=
| cron_Schedule (schedule : Schedule) (job : Job) (id : string)
| cron_RemoveJob (id : string)
| cron_Start
| cron_Stop.

Definition cron_New `{CronParser} : list CronCall := [].

(** A [sync.RWMutex] is released by a deferred call before the method
    returns; the model keeps the acquisitions it has seen. *)
Inductive LockMode : Type := Lock | RLock.

(** ** State *)

Record cronEntryWithSchedule `{CronParser} : Type := {
  entry : CronEntry;
  schedule : Schedule;
  overwriteEntry : bool
}.

Record cronJobSchedule `{CronParser} : Type := {
  js_schedule : Schedule;
  js_job : Job;
  js_id : string
}.

(** The struct [Crontinuous].  [storage] is the state behind
    [scanCronStore] and [reportCronStore]; [scanMux] and [reportMux] are
    the acquisitions of the two mutexes so far; [cron] is the calls
    received by the scheduler that the field points to.  The two tables
    are allocated maps, as [NewCrontinuous] and [BulkCreate] make them,
    and the operations other than [Start] are those of an orchestrator
    whose [cron] field is set, by [Start] or as the tests do: a write to a
    nil map and a call on a nil scheduler are outside the model. *)
Record Crontinuous `{CronParser, CronStore} : Type := {
  config : Config;
  storage : Store;
  scanEntries : gmap string ScanEntry;
  scanMux : list LockMode;
  reportEntries : gmap string ReportEntry;
  reportMux : list LockMode;
  cron : list CronCall
}.

Section Operations.
Context `{P : CronParser, S : CronStore, R : MapRange}.

Definition set_storage (st : Store) (c : Crontinuous) : Crontinuous :=
  {| config := config c; storage := st;
     scanEntries := scanEntries c; scanMux := scanMux c;
     reportEntries := reportEntries c; reportMux := reportMux c;
     cron := cron c |}.

Definition set_scanEntries (m : gmap string ScanEntry) (c : Crontinuous)
  : Crontinuous :=
  {| config := config c; storage := storage c;
     scanEntries := m; scanMux := scanMux c;
     reportEntries := reportEntries c; reportMux := reportMux c;
     cron := cron c |}.

Definition set_reportEntries (m : gmap string ReportEntry) (c : Crontinuous)
  : Crontinuous :=
  {| config := config c; storage := storage c;
     scanEntries := scanEntries c; scanMux := scanMux c;
     reportEntries := m; reportMux := reportMux c;
     cron := cron c |}.

Definition set_cron (cr : list CronCall) (c : Crontinuous) : Crontinuous :=
  {| config := config c; storage := storage c;
     scanEntries := scanEntries c; scanMux := scanMux c;
     reportEntries := reportEntries c; reportMux := reportMux c;
     cron := cr |}.

(** [c.scanMux.Lock()] / [c.scanMux.RLock()] with the deferred unlock. *)
Definition lock_scanMux (mode : LockMode) (c : Crontinuous) : Crontinuous :=
  {| config := config c; storage := storage c;
     scanEntries := scanEntries c; scanMux := scanMux c ++ [mode];
     reportEntries := reportEntries c; reportMux := reportMux c;
     cron := cron c |}.

Definition lock_reportMux (mode : LockMode) (c : Crontinuous) : Crontinuous :=
  {| config := config c; storage := storage c;
     scanEntries := scanEntries c; scanMux := scanMux c;
     reportEntries := reportEntries c; reportMux := reportMux c ++ [mode];
     cron := cron c |}.

(** [NewCrontinuous]: empty tables, and a scheduler that has received no
    call ([Start] creates it). *)
Definition NewCrontinuous (cfg : Config) (st : Store) : Crontinuous :=
  {| config := cfg; storage := st;
     scanEntries := ∅; scanMux := [];
     reportEntries := ∅; reportMux := [];
     cron := [] |}.

(** ** WhitelistPolicy: [isTeamWhitelisted] *)

Definition isTeamWhitelisted (cfg : Config) (typ : CronType)
    (teamID : string) : bool :=
  let enable := false in
  let whitelist := [] in
  let '(enable, whitelist) :=
    if decide (typ = ScanCronType)
    then (EnableTeamsWhitelistScan cfg, TeamsWhitelistScan cfg)
    else (enable, whitelist) in
  let '(enable, whitelist) :=
    if decide (typ = ReportCronType)
    then (EnableTeamsWhitelistReport cfg, TeamsWhitelistReport cfg)
    else (enable, whitelist) in
  if negb enable then true
  else existsb (λ t, bool_decide (t = teamID)) whitelist.

(** ** Start *)

(** The loop of [buildScanEntries] over the loaded entries. *)
Fixpoint buildScanLoop (cfg : Config) (items : list (string * ScanEntry))
    (scanSchedules : list cronJobSchedule)
  : error + list cronJobSchedule :=
  match items with
  | [] => inr scanSchedules
  | (_, se) :: rest =>
      if negb (isTeamWhitelisted cfg ScanCronType (TeamID se))
      then buildScanLoop cfg rest scanSchedules
      else
        match ParseStandard (CronSpec se) with
        | inl err => inl (External err)
        | inr s =>
            buildScanLoop cfg rest
              (scanSchedules ++
               [{| js_schedule := s;
                   js_job := scanJob (ProgramID se) (TeamID se);
                   js_id := ProgramID se |}])
        end
  end.

Definition buildScanEntries (c : Crontinuous)
  : (error + gmap string ScanEntry * list cronJobSchedule) * Crontinuous :=
  let '(got, st) := GetScanEntries (storage c) in
  let c := set_storage st c in
  match got with
  | inl err => (inl (External err), c)
  | inr scanEntries =>
      match buildScanLoop (config c) (range scanEntries) [] with
      | inl err => (inl err, c)
      | inr scanSchedules => (inr (scanEntries, scanSchedules), c)
      end
  end.

Fixpoint buildReportLoop (cfg : Config) (items : list (string * ReportEntry))
    (reportSchedules : list cronJobSchedule)
  : error + list cronJobSchedule :=
  match items with
  | [] => inr reportSchedules
  | (_, re) :: rest =>
      if negb (isTeamWhitelisted cfg ReportCronType (ReportTeamID re))
      then buildReportLoop cfg rest reportSchedules
      else
        match ParseStandard (ReportCronSpec re) with
        | inl err => inl (External err)
        | inr s =>
            buildReportLoop cfg rest
              (reportSchedules ++
               [{| js_schedule := s;
                   js_job := reportJob (ReportTeamID re);
                   js_id := ReportTeamID re |}])
        end
  end.

Definition buildReportEntries (c : Crontinuous)
  : (error + gmap string ReportEntry * list cronJobSchedule) * Crontinuous :=
  let '(got, st) := GetReportEntries (storage c) in
  let c := set_storage st c in
  match got with
  | inl err => (inl (External err), c)
  | inr reportEntries =>
      match buildReportLoop (config c) (range reportEntries) [] with
      | inl err => (inl err, c)
      | inr reportSchedules => (inr (reportEntries, reportSchedules), c)
      end
  end.

(** [for _, cs := range cronSchedules { c.cron.Schedule(...) }] *)
Definition scheduleAll (jobs : list cronJobSchedule) (cr : list CronCall)
  : list CronCall :=
  foldl (λ cr j, cr ++ [cron_Schedule (js_schedule j) (js_job j) (js_id j)])
        cr jobs.

Definition Start (c : Crontinuous) : option error * Crontinuous :=
  let c := set_cron cron_New c in
  let cronSchedules := [] in
  match buildScanEntries c with
  | (inl err, c) => (Some err, c)
  | (inr (scanEntries, scanSchedules), c) =>
      let c := set_scanEntries scanEntries c in
      let cronSchedules := cronSchedules ++ scanSchedules in
      match buildReportEntries c with
      | (inl err, c) => (Some err, c)
      | (inr (reportEntries, reportSchedules), c) =>
          let c := set_reportEntries reportEntries c in
          let cronSchedules := cronSchedules ++ reportSchedules in
          let c := set_cron (scheduleAll cronSchedules (cron c)) c in
          let c := set_cron (cron c ++ [cron_Start]) c in
          (None, c)
      end
  end.

Definition Stop (c : Crontinuous) : Crontinuous :=
  set_cron (cron c ++ [cron_Stop]) c.

(** ** BulkCreate *)

(** The first loop of [BulkCreate]: [i] is the index of the head of
    [entries] in the slice.  [None] is the run-time panic of
    [overwriteSettings[i]] when the index is out of range. *)
Fixpoint parseEntries (entries : list CronEntry)
    (overwriteSettings : list bool) (i : nat)
    (parsedEntries : gmap string cronEntryWithSchedule)
  : option (error + gmap string cronEntryWithSchedule) :=
  match entries with
  | [] => Some (inr parsedEntries)
  | e :: rest =>
      match ParseStandard (GetCronSpec e) with
      | inl _ => Some (inl ErrMalformedSchedule)
      | inr s =>
          match overwriteSettings !! i with
          | None => None
          | Some o =>
              parseEntries rest overwriteSettings (Datatypes.S i)
                (<[GetID e := {| entry := e; schedule := s;
                                 overwriteEntry := o |}]> parsedEntries)
          end
      end
  end.

(** [current := make(...); for _, e := range c.scanEntries
    { current[e.ProgramID] = e }] *)
Definition copyScanEntries (m : gmap string ScanEntry)
  : gmap string ScanEntry :=
  foldl (λ current kv, <[ProgramID (snd kv) := snd kv]> current) ∅ (range m).

(** The second loop of [scanBulkCreate], over the parsed entries in the
    order [range] gives them. *)
Fixpoint scanBulkLoop (cfg : Config)
    (items : list (string * cronEntryWithSchedule))
    (current : gmap string ScanEntry) (scheduledJobs : list cronJobSchedule)
  : error + gmap string ScanEntry * list cronJobSchedule :=
  match items with
  | [] => inr (current, scheduledJobs)
  | (_, e) :: rest =>
      match entry e with
      | OfScan se =>
          if bool_decide (is_Some (current !! ProgramID se))
             && negb (overwriteEntry e)
          then scanBulkLoop cfg rest current scheduledJobs
          else
            let current := <[ProgramID se := se]> current in
            if negb (isTeamWhitelisted cfg ScanCronType (TeamID se))
            then scanBulkLoop cfg rest current scheduledJobs
            else
              scanBulkLoop cfg rest current
                (scheduledJobs ++
                 [{| js_schedule := schedule e;
                     js_job := scanJob (ProgramID se) (TeamID se);
                     js_id := ProgramID se |}])
      | _ => inl ErrMalformedEntry
      end
  end.

Definition scanBulkCreate
    (scheduledEntries : gmap string cronEntryWithSchedule) (c : Crontinuous)
  : (list cronJobSchedule * option error) * Crontinuous :=
  let c := lock_scanMux Lock c in
  let current := copyScanEntries (scanEntries c) in
  match scanBulkLoop (config c) (range scheduledEntries) current [] with
  | inl err => (([], Some err), c)
  | inr (current, scheduledJobs) =>
      let c := set_scanEntries current c in
      let '(err, st) := SaveScanEntries (scanEntries c) (storage c) in
      ((scheduledJobs, External <$> err), set_storage st c)
  end.

Definition copyReportEntries (m : gmap string ReportEntry)
  : gmap string ReportEntry :=
  foldl (λ current kv, <[ReportTeamID (snd kv) := snd kv]> current) ∅
        (range m).

Fixpoint reportBulkLoop (cfg : Config)
    (items : list (string * cronEntryWithSchedule))
    (current : gmap string ReportEntry)
    (scheduledJobs : list cronJobSchedule)
  : error + gmap string ReportEntry * list cronJobSchedule :=
  match items with
  | [] => inr (current, scheduledJobs)
  | (_, e) :: rest =>
      match entry e with
      | OfReport re =>
          if bool_decide (is_Some (current !! ReportTeamID re))
             && negb (overwriteEntry e)
          then reportBulkLoop cfg rest current scheduledJobs
          else
            let current := <[ReportTeamID re := re]> current in
            if negb (isTeamWhitelisted cfg ReportCronType (ReportTeamID re))
            then reportBulkLoop cfg rest current scheduledJobs
            else
              reportBulkLoop cfg rest current
                (scheduledJobs ++
                 [{| js_schedule := schedule e;
                     js_job := reportJob (ReportTeamID re);
                     js_id := ReportTeamID re |}])
      | _ => inl ErrMalformedEntry
      end
  end.

Definition reportBulkCreate
    (scheduledEntries : gmap string cronEntryWithSchedule) (c : Crontinuous)
  : (list cronJobSchedule * option error) * Crontinuous :=
  let c := lock_reportMux Lock c in
  let current := copyReportEntries (reportEntries c) in
  match reportBulkLoop (config c) (range scheduledEntries) current [] with
  | inl err => (([], Some err), c)
  | inr (current, scheduledJobs) =>
      let c := set_reportEntries current c in
      let '(err, st) := SaveReportEntries (reportEntries c) (storage c) in
      ((scheduledJobs, External <$> err), set_storage st c)
  end.

(** What [BulkCreate] does once the entries are parsed. *)
Definition bulkDispatch (typ : CronType)
    (parsedEntries : gmap string cronEntryWithSchedule) (c : Crontinuous)
  : option error * Crontinuous :=
  let called :=
    if decide (typ = ScanCronType)
    then Some (scanBulkCreate parsedEntries c)
    else if decide (typ = ReportCronType)
    then Some (reportBulkCreate parsedEntries c)
    else None in
  match called with
  | None => (Some ErrInvalidCronType, c)
  | Some ((_, Some err), c) => (Some err, c)
  | Some ((jobsWithSchedule, None), c) =>
      (None, set_cron (scheduleAll jobsWithSchedule (cron c)) c)
  end.

(** [None] is a run-time panic (index out of range). *)
Definition BulkCreate (typ : CronType) (entries : list CronEntry)
    (overwriteSettings : list bool) (c : Crontinuous)
  : option (option error * Crontinuous) :=
  match parseEntries entries overwriteSettings 0%nat ∅ with
  | None => None
  | Some (inl err) => Some (Some err, c)
  | Some (inr parsedEntries) => Some (bulkDispatch typ parsedEntries c)
  end.

(** ** SaveEntry *)

Definition saveScanEntry (entry : CronEntry) (c : Crontinuous)
  : (error + Job) * Crontinuous :=
  match entry with
  | OfScan scanEntry =>
      let c := lock_scanMux Lock c in
      let c := set_scanEntries
                 (<[ProgramID scanEntry := scanEntry]> (scanEntries c)) c in
      let '(err, st) := SaveScanEntries (scanEntries c) (storage c) in
      let c := set_storage st c in
      match err with
      | Some err => (inl (External err), c)
      | None =>
          if negb (isTeamWhitelisted (config c) ScanCronType
                     (TeamID scanEntry))
          then (inl errTeamNotWhitelisted, c)
          else (inr (scanJob (ProgramID scanEntry) (TeamID scanEntry)), c)
      end
  | _ => (inl ErrMalformedEntry, c)
  end.

Definition saveReportEntry (entry : CronEntry) (c : Crontinuous)
  : (error + Job) * Crontinuous :=
  match entry with
  | OfReport reportEntry =>
      let c := lock_reportMux Lock c in
      let c := set_reportEntries
                 (<[ReportTeamID reportEntry := reportEntry]>
                    (reportEntries c)) c in
      let '(err, st) := SaveReportEntries (reportEntries c) (storage c) in
      let c := set_storage st c in
      match err with
      | Some err => (inl (External err), c)
      | None =>
          if negb (isTeamWhitelisted (config c) ReportCronType
                     (ReportTeamID reportEntry))
          then (inl errTeamNotWhitelisted, c)
          else (inr (reportJob (ReportTeamID reportEntry)), c)
      end
  | _ => (inl ErrMalformedEntry, c)
  end.

Definition SaveEntry (typ : CronType) (entry : CronEntry) (c : Crontinuous)
  : option error * Crontinuous :=
  match ParseStandard (GetCronSpec entry) with
  | inl _ => (Some ErrMalformedSchedule, c)
  | inr s =>
      let called :=
        if decide (typ = ScanCronType) then Some (saveScanEntry entry c)
        else if decide (typ = ReportCronType)
        then Some (saveReportEntry entry c)
        else None in
      match called with
      | None => (Some ErrInvalidCronType, c)
      | Some (inl err, c) =>
          if is_errTeamNotWhitelisted err then (None, c) else (Some err, c)
      | Some (inr cronJob, c) =>
          (None,
           set_cron (cron c ++ [cron_Schedule s cronJob (GetID entry)]) c)
      end
  end.

(** ** GetEntries and GetEntryByID *)

Definition getScanEntries (c : Crontinuous)
  : (list CronEntry * option error) * Crontinuous :=
  let c := lock_scanMux RLock c in
  let entries := foldl (λ entries kv, entries ++ [OfScan (snd kv)]) []
                       (range (scanEntries c)) in
  ((entries, None), c).

Definition getReportEntries (c : Crontinuous)
  : (list CronEntry * option error) * Crontinuous :=
  let c := lock_reportMux RLock c in
  let entries := foldl (λ entries kv, entries ++ [OfReport (snd kv)]) []
                       (range (reportEntries c)) in
  ((entries, None), c).

Definition GetEntries (typ : CronType) (c : Crontinuous)
  : (error + list CronEntry) * Crontinuous :=
  let called :=
    if decide (typ = ScanCronType) then Some (getScanEntries c)
    else if decide (typ = ReportCronType) then Some (getReportEntries c)
    else None in
  match called with
  | None => (inl ErrInvalidCronType, c)
  | Some ((_, Some err), c) => (inl err, c)
  | Some ((entries, None), c) => (inr entries, c)
  end.

Definition getScanEntryByID (ID : string) (c : Crontinuous)
  : (error + ScanEntry) * Crontinuous :=
  let c := lock_scanMux RLock c in
  match scanEntries c !! ID with
  | None => (inl ErrScheduleNotFound, c)
  | Some e => (inr e, c)
  end.

Definition getReportEntryByID (ID : string) (c : Crontinuous)
  : (error + ReportEntry) * Crontinuous :=
  let c := lock_reportMux RLock c in
  match reportEntries c !! ID with
  | None => (inl ErrScheduleNotFound, c)
  | Some e => (inr e, c)
  end.

Definition GetEntryByID (typ : CronType) (ID : string) (c : Crontinuous)
  : (error + CronEntry) * Crontinuous :=
  let called :=
    if decide (typ = ScanCronType)
    then Some (match getScanEntryByID ID c with
               | (inl err, c) => (inl err, c)
               | (inr e, c) => (inr (OfScan e), c)
               end)
    else if decide (typ = ReportCronType)
    then Some (match getReportEntryByID ID c with
               | (inl err, c) => (inl err, c)
               | (inr e, c) => (inr (OfReport e), c)
               end)
    else None in
  match called with
  | None => (inl ErrInvalidCronType, c)
  | Some (inl err, c) => (inl err, c)
  | Some (inr entry, c) => (inr entry, c)
  end.

(** ** RemoveEntry *)

Definition removeScanEntry (ID : string) (c : Crontinuous)
  : option error * Crontinuous :=
  let c := lock_scanMux Lock c in
  match scanEntries c !! ID with
  | None => (Some ErrScheduleNotFound, c)
  | Some _ =>
      let c := set_scanEntries (delete ID (scanEntries c)) c in
      let '(err, st) := SaveScanEntries (scanEntries c) (storage c) in
      (External <$> err, set_storage st c)
  end.

Definition removeReportEntry (ID : string) (c : Crontinuous)
  : option error * Crontinuous :=
  let c := lock_reportMux Lock c in
  match reportEntries c !! ID with
  | None => (Some ErrScheduleNotFound, c)
  | Some _ =>
      let c := set_reportEntries (delete ID (reportEntries c)) c in
      let '(err, st) := SaveReportEntries (reportEntries c) (storage c) in
      (External <$> err, set_storage st c)
  end.

Definition RemoveEntry (typ : CronType) (ID : string) (c : Crontinuous)
  : option error * Crontinuous :=
  let called :=
    if decide (typ = ScanCronType) then Some (removeScanEntry ID c)
    else if decide (typ = ReportCronType) then Some (removeReportEntry ID c)
    else None in
  match called with
  | None => (Some ErrInvalidCronType, c)
  | Some (Some err, c) => (Some err, c)
  | Some (None, c) => (None, set_cron (cron c ++ [cron_RemoveJob ID]) c)
  end.

End Operations.

(** ** The store in S3 (cron_store.go) *)

(** An error of the S3 client: an [awserr.Error] with its code, or any
    other error. *)
Inductive clientError : Type :=
| awsError (code message : string)
| otherError (message : string).

(** The libraries under the store: the S3 client ([s3iface.S3API], with
    the state [S3] of the service behind it and the SDK's constant
    [s3.ErrCodeNoSuchKey]) and encoding/json on the two tables.
    [Content] is the bytes of an object; the body of a [GetObject] output
    is what [ioutil.ReadAll] makes of it, an error or the content. *)
Class StoreLibs : Type := {
  Content : Type;
  S3 : Type;
  ErrCodeNoSuchKey : string;
  GetObject : string → string → S3 → (clientError + (string + Content)) * S3;
  PutObject : string → string → Content → S3 → option clientError * S3;
  MarshalScans : gmap string ScanEntry → string + Content;
  UnmarshalScans : Content → string + gmap string ScanEntry;
  MarshalReports : gmap string ReportEntry → string + Content;
  UnmarshalReports : Content → string + gmap string ReportEntry
}.

(** The errors inside the store: its sentinel [errEntriesFileNotFound],
    an error of the client, or an error of ReadAll or of encoding/json
    with its text. *)
Inductive storeError : Type :=
| errEntriesFileNotFound
| clientFailure (err : clientError)
| libraryFailure (message : string).

(** The text of a store error, which is all that the orchestrator keeps of
    it. *)
Definition storeErrorText (err : storeError) : string :=
  match err with
  | errEntriesFileNotFound => "EntriesFileNotFound"
  | clientFailure (awsError code message) => code +:+ ": " +:+ message
  | clientFailure (otherError message) => message
  | libraryFailure message => message
  end.

Record S3CronStore : Type := {
  bucket : string;
  scanCronKey : string;
  reportCronKey : string
}.

Definition NewS3CronStore (bucket scanCronKey reportCronKey : string)
  : S3CronStore :=
  {| bucket := bucket; scanCronKey := scanCronKey;
     reportCronKey := reportCronKey |}.

Section S3Store.
Context `{L : StoreLibs}.

Definition getEntriesData (s : S3CronStore) (key : string) (st : S3)
  : (storeError + Content) * S3 :=
  let '(output, st) := GetObject (bucket s) key st in
  match output with
  | inl err =>
      match err with
      | awsError code _ =>
          if decide (code = ErrCodeNoSuchKey)
          then (inl errEntriesFileNotFound, st)
          else (inl (clientFailure err), st)
      | otherError _ => (inl (clientFailure err), st)
      end
  | inr (inl message) => (inl (libraryFailure message), st)
  | inr (inr data) => (inr data, st)
  end.

Definition s3GetScanEntries (s : S3CronStore) (st : S3)
  : (storeError + gmap string ScanEntry) * S3 :=
  match getEntriesData s (scanCronKey s) st with
  | (inl err, st) =>
      match err with
      | errEntriesFileNotFound => (inr ∅, st)
      | _ => (inl err, st)
      end
  | (inr entriesData, st) =>
      match UnmarshalScans entriesData with
      | inl message => (inl (libraryFailure message), st)
      | inr scanEntries => (inr scanEntries, st)
      end
  end.

Definition s3GetReportEntries (s : S3CronStore) (st : S3)
  : (storeError + gmap string ReportEntry) * S3 :=
  match getEntriesData s (reportCronKey s) st with
  | (inl err, st) =>
      match err with
      | errEntriesFileNotFound => (inr ∅, st)
      | _ => (inl err, st)
      end
  | (inr entriesData, st) =>
      match UnmarshalReports entriesData with
      | inl message => (inl (libraryFailure message), st)
      | inr reportEntries => (inr reportEntries, st)
      end
  end.

(** [saveEntries]; [marshal] is [json.Marshal] at the type of
    [entries]. *)
Definition saveEntries {A : Type} (marshal : A → string + Content)
    (s : S3CronStore) (key : string) (entries : A) (st : S3)
  : option storeError * S3 :=
  match marshal entries with
  | inl message => (Some (libraryFailure message), st)
  | inr content =>
      let '(err, st) := PutObject (bucket s) key content st in
      (clientFailure <$> err, st)
  end.

Definition s3SaveScanEntries (s : S3CronStore)
    (entries : gmap string ScanEntry) (st : S3) : option storeError * S3 :=
  saveEntries MarshalScans s (scanCronKey s) entries st.

Definition s3SaveReportEntries (s : S3CronStore)
    (entries : gmap string ReportEntry) (st : S3) : option storeError * S3 :=
  saveEntries MarshalReports s (reportCronKey s) entries st.

(** [*S3CronStore] as the [ScanCronStore] and the [ReportCronStore] of an
    orchestrator. *)
Definition s3CronStore (s : S3CronStore) : CronStore :=
  {| Store := S3;
     GetScanEntries st :=
       let '(r, st) := s3GetScanEntries s st in
       (match r with
        | inl err => inl (storeErrorText err)
        | inr m => inr m
        end, st);
     SaveScanEntries entries st :=
       let '(err, st) := s3SaveScanEntries s entries st in
       (storeErrorText <$> err, st);
     GetReportEntries st :=
       let '(r, st) := s3GetReportEntries s st in
       (match r with
        | inl err => inl (storeErrorText err)
        | inr m => inr m
        end, st);
     SaveReportEntries entries st :=
       let '(err, st) := s3SaveReportEntries s entries st in
       (storeErrorText <$> err, st) |}.

End S3Store.

(** ** The HTTP handlers (the root command) *)

#[global] Instance error_eq_dec : EqDecision error.
Proof. solve_decision. Defined.

(** [err.Error()]: the texts given to [errors.New] in crontinuous.go, and
    the text of an error of a collaborator. *)
Definition errorText (err : error) : string :=
  match err with
  | ErrScheduleNotFound => "ErrorScheduleNotFound"
  | ErrMalformedSchedule => "ErrorMalformedSchedule"
  | ErrMalformedEntry => "ErrorMalformedEntry"
  | ErrInvalidCronType => "ErrInvalidCronType"
  | errTeamNotWhitelisted => "ErrTeamNotWhitelisted"
  | External msg => msg
  end.

(** The payloads [cronString] and [createSetting]; the fields of
    [createSetting] are [Str], [TeamID], [ProgramID] and [Overwrite] in
    the source. *)
Record cronString : Type := { Str : string }.

Record createSetting : Type := {
  SettingStr : string;
  SettingTeamID : string;
  SettingProgramID : string;
  SettingOverwrite : bool
}.

(** encoding/json on the request bodies and on the answers: [Body] is a
    request body, [Encoded] what an encoder writes to the response. *)
Class HTTPLibs : Type := {
  Body : Type;
  Encoded : Type;
  DecodeCronString : Body → string + cronString;
  DecodeSettings : Body → string + list createSetting;
  EncodeEntries : list CronEntry → string + Encoded;
  EncodeEntry : CronEntry → string + Encoded
}.

(** What a handler leaves in the [http.ResponseWriter]: the text and the
    status of [http.Error], the output of the encoder, or nothing, which
    the server sends as an empty answer with status 200. *)
Inductive response `{HTTPLibs} : Type :=
| httpError (message : string) (status : Z)
| written (body : Encoded)
| nothing.

Definition statusOf `{HTTPLibs} (resp : response) : Z :=
  match resp with
  | httpError _ status => status
  | written _ => 200
  | nothing => 200
  end.

(** [http.NotFound]. *)
Definition httpNotFound `{HTTPLibs} : response :=
  httpError "404 page not found" 404.

Section Handlers.
Context `{P : CronParser, S : CronStore, R : MapRange, H : HTTPLibs}.










Definition getSchedulesHandler (typ : CronType) (c : Crontinuous)
  : response * Crontinuous :=
  match GetEntries typ c with
  | (inl err, c) => (httpError (errorText err) 500, c)
  | (inr entries, c) =>
      match EncodeEntries entries with
      | inl msg => (httpError msg 500, c)
      | inr body => (written body, c)
      end
  end.

Definition getScanSchedulesHandler (c : Crontinuous)
  : response * Crontinuous :=
  getSchedulesHandler ScanCronType c.

Definition getReportSchedulesHandler (c : Crontinuous)
  : response * Crontinuous :=
  getSchedulesHandler ReportCronType c.

Definition getScheduleByIDHandler (typ : CronType) (id : string)
    (c : Crontinuous) : response * Crontinuous :=
  match GetEntryByID typ id c with
  | (inl err, c) =>
      if decide (err = ErrScheduleNotFound) then (httpNotFound, c)
      else (httpError (errorText err) 500, c)
  | (inr entry, c) =>
      match EncodeEntry entry with
      | inl msg => (httpError msg 500, c)
      | inr body => (written body, c)
      end
  end.

Definition getScanScheduleByIDHandler (programID : string) (c : Crontinuous)
  : response * Crontinuous :=
  let id := programID in
  if decide (id = "") then (httpError "Bad request" 400, c)
  else getScheduleByIDHandler ScanCronType id c.

Definition getReportScheduleByIDHandler (teamID : string) (c : Crontinuous)
  : response * Crontinuous :=
  let id := teamID in
  if decide (id = "") then (httpError "Bad request" 400, c)
  else getScheduleByIDHandler ReportCronType id c.

(** [cron.ParseStandard] accepts the cron spec of a setting of a bulk
    request. *)
Definition goodSetting (s : createSetting) : Prop :=
  ∃ sch, ParseStandard (SettingStr s) = inr sch.

#[global] Instance goodSetting_dec s : Decision (goodSetting s) :=
  match ParseStandard (SettingStr s) as r
    return Decision (∃ sch, r = inr sch) with
  | inl msg => right (λ Hex, match Hex with
                             | ex_intro _ sch Hs =>
                                 eq_ind (inl msg)
                                   (λ r, match r with
                                         | inl _ => True
                                         | inr _ => False
                                         end) I (inr sch) Hs
                             end)
  | inr sch => left (ex_intro _ sch eq_refl)
  end.

End Handlers.

(** ** Vocabulary of the statements *)

Section Vocabulary.
Context `{P : CronParser, S : CronStore}.

(** The entry of a type's table under [id], as a [CronEntry]. *)
Definition stored (typ : CronType) (c : Crontinuous) (id : string)
  : option CronEntry :=
  if decide (typ = ScanCronType) then OfScan <$> scanEntries c !! id
  else if decide (typ = ReportCronType)
       then OfReport <$> reportEntries c !! id
       else None.

(** The entry's concrete variant is the one of the type's manager. *)
Definition hasType (typ : CronType) (e : CronEntry) : Prop :=
  match e with
  | OfScan _ => typ = ScanCronType
  | OfReport _ => typ = ReportCronType
  end.

#[global] Instance hasType_dec typ e : Decision (hasType typ e) :=
  match e with
  | OfScan _ => decide (typ = ScanCronType)
  | OfReport _ => decide (typ = ReportCronType)
  end.

(** The team whose whitelisting decides whether the entry gets a job. *)
Definition team (e : CronEntry) : string :=
  match e with
  | OfScan se => TeamID se
  | OfReport re => ReportTeamID re
  end.

(** The job that the type's manager builds for the entry. *)
Definition jobOf (e : CronEntry) : Job :=
  match e with
  | OfScan se => scanJob (ProgramID se) (TeamID se)
  | OfReport re => reportJob (ReportTeamID re)
  end.

(** [cron.ParseStandard] accepts the entry's cron spec. *)
Definition parses (e : CronEntry) : Prop :=
  ∃ s, ParseStandard (GetCronSpec e) = inr s.

#[global] Instance parses_dec e : Decision (parses e) :=
  match ParseStandard (GetCronSpec e) as r
    return Decision (∃ s, r = inr s) with
  | inl msg => right (λ H, match H with
                           | ex_intro _ s Hs =>
                               eq_ind (inl msg)
                                 (λ r, match r with
                                       | inl _ => True
                                       | inr _ => False
                                       end) I (inr s) Hs
                           end)
  | inr s => left (ex_intro _ s eq_refl)
  end.

(** The invariant of the entry tables: every key is its entry's id. *)
Definition wellKeyed (c : Crontinuous) : Prop :=
  map_Forall (λ k se, ProgramID se = k) (scanEntries c)
  ∧ map_Forall (λ k re, ReportTeamID re = k) (reportEntries c).

#[global] Instance wellKeyed_dec c : Decision (wellKeyed c).
Proof.
  unfold wellKeyed.
  apply and_dec; apply map_Forall_dec; intros k x; simpl; apply _.
Defined.

(** The persistence call of a type's manager on the table of [c'] and
    the storage [st]. *)
Definition persist (typ : CronType) (c' : Crontinuous) (st : Store)
  : option string * Store :=
  if decide (typ = ScanCronType) then SaveScanEntries (scanEntries c') st
  else SaveReportEntries (reportEntries c') st.

(** The last item of a batch that has the given id. *)
Fixpoint lastWithID (id : string) (batch : list (CronEntry * bool))
  : option (CronEntry * bool) :=
  match batch with
  | [] => None
  | (e, o) :: rest =>
      match lastWithID id rest with
      | Some item => Some item
      | None => if decide (GetID e = id) then Some (e, o) else None
      end
  end.

(** What a table holds under an id after a bulk upsert: [old] is what it
    held before and [item] the batch item kept for this id, if any. *)
Definition bulkResult (old : option CronEntry)
    (item : option (CronEntry * bool)) : option CronEntry :=
  match item with
  | Some (e, o) => if bool_decide (is_Some old) && negb o then old else Some e
  | None => old
  end.

(** [parsed] is the batch keyed by id: under each id, the last item of
    the batch with this id, its schedule and its overwrite flag. *)
Definition keyedBatch (parsed : gmap string cronEntryWithSchedule)
    (batch : list (CronEntry * bool)) : Prop :=
  ∀ id, parsed !! id =
    match lastWithID id batch with
    | Some (e, o) =>
        match ParseStandard (GetCronSpec e) with
        | inr s => Some {| entry := e; schedule := s; overwriteEntry := o |}
        | inl _ => None
        end
    | None => None
    end.

End Vocabulary.

(** ** A concrete environment

    Used to run the operations on concrete inputs. *)

(** The number of space-separated fields of a cron spec. *)
Fixpoint countFields (s : string) (inField : bool) : nat :=
  match s with
  | EmptyString => 0%nat
  | String a rest =>
      if Ascii.eqb a (Ascii.ascii_of_nat 32) then countFields rest false
      else ((if inField then 0 else 1) + countFields rest true)%nat
  end.

(** A stand-in for the cron library: a spec is accepted when it has five
    fields, as [cron.ParseStandard] requires, and the schedule is the spec
    itself.  It is only applied to the specs ["* * * * *"] and
    ["*/n * * * *"], which the library accepts, and to specs without five
    fields, which it rejects. *)
Definition fiveFieldParser : CronParser :=
  {| Schedule := string;
     ParseStandard spec :=
       if decide (countFields spec false = 5%nat) then inr spec
       else inl "Expected exactly 5 fields"%string |}.

(** A store in memory, as [mockCronStore] of the tests, with a switch that
    makes every write fail. *)
Record memStore : Type := {
  savedScans : gmap string ScanEntry;
  savedReports : gmap string ReportEntry;
  failWrites : bool
}.

Definition memCronStore : CronStore :=
  {| Store := memStore;
     GetScanEntries st := (inr (savedScans st), st);
     SaveScanEntries entries st :=
       if failWrites st then (Some "PutObject failed"%string, st)
       else (None, {| savedScans := entries;
                      savedReports := savedReports st;
                      failWrites := false |});
     GetReportEntries st := (inr (savedReports st), st);
     SaveReportEntries entries st :=
       if failWrites st then (Some "PutObject failed"%string, st)
       else (None, {| savedScans := savedScans st;
                      savedReports := entries;
                      failWrites := false |}) |}.

(** [range] in the order of the keys' encoding. *)
Definition listRange : MapRange :=
  {| range A m := map_to_list m;
     range_perm A m := Permutation_refl (map_to_list m) |}.

Module Sample.
#[local] Existing Instances fiveFieldParser memCronStore listRange.
Open Scope string_scope.

Definition emptyStore : memStore :=
  {| savedScans := ∅; savedReports := ∅; failWrites := false |}.

Definition brokenStore : memStore :=
  {| savedScans := ∅; savedReports := ∅; failWrites := true |}.

(** A store whose saved scan entry ["a"] has a spec that is no cron
    spec. *)
Definition badScanStore : memStore :=
  {| savedScans :=
       {[ "a" := {| ProgramID := "a"; TeamID := "t1";
                    CronSpec := "every minute" |} ]};
     savedReports := ∅; failWrites := false |}.

Definition noWhitelist : Config :=
  {| Bucket := "bucket";
     EnableTeamsWhitelistScan := false; TeamsWhitelistScan := [];
     EnableTeamsWhitelistReport := false; TeamsWhitelistReport := [] |}.

Definition onlyT1 : Config :=
  {| Bucket := "bucket";
     EnableTeamsWhitelistScan := true; TeamsWhitelistScan := ["t1"];
     EnableTeamsWhitelistReport := true; TeamsWhitelistReport := ["t1"] |}.

Definition scanA (spec : string) : ScanEntry :=
  {| ProgramID := "a"; TeamID := "t1"; CronSpec := spec |}.

Definition scanB (spec : string) : ScanEntry :=
  {| ProgramID := "b"; TeamID := "t2"; CronSpec := spec |}.

Definition reportT (team spec : string) : ReportEntry :=
  {| ReportTeamID := team; ReportCronSpec := spec |}.

(** A started orchestrator whose scan table holds ["a"] with spec
    ["*/2 * * * *"] and whose report table holds ["t1"]. *)
Definition running (cfg : Config) (st : memStore) : Crontinuous :=
  {| config := cfg; storage := st;
     scanEntries := {[ "a" := scanA "*/2 * * * *" ]};
     scanMux := [];
     reportEntries := {[ "t1" := reportT "t1" "*/5 * * * *" ]};
     reportMux := [];
     cron := [cron_Start] |}.

End Sample.

(** Stand-ins for the libraries of the S3 store and of the handlers, and
    a store whose reads can fail. *)
Module SampleLibs.
Open Scope string_scope.

(** An S3 service in memory: the objects under "bucket/key"; encoding/json
    is the identity on the tables. *)
Definition memLibs : StoreLibs :=
  {| Content := gmap string ScanEntry + gmap string ReportEntry;
     S3 := gmap string (gmap string ScanEntry + gmap string ReportEntry);
     ErrCodeNoSuchKey := "NoSuchKey";
     GetObject b k st :=
       (match st !! (b +:+ "/" +:+ k) with
        | Some content => inr (inr content)
        | None =>
            inl (awsError "NoSuchKey" "The specified key does not exist.")
        end, st);
     PutObject b k content st := (None, <[b +:+ "/" +:+ k := content]> st);
     MarshalScans m := inr (inl m);
     UnmarshalScans content :=
       match content with
       | inl m => inr m
       | inr _ => inl "cannot unmarshal into a scan table"
       end;
     MarshalReports m := inr (inr m);
     UnmarshalReports content :=
       match content with
       | inr m => inr m
       | inl _ => inl "cannot unmarshal into a report table"
       end |}.

Definition crontabStore : S3CronStore :=
  NewS3CronStore "bucket" "crontab.json" "reportsCrontab.json".

(** Request bodies that are already decoded, or that do not decode. *)
Inductive sampleBody : Type :=
| garbage
| cronStringBody (cs : cronString)
| settingsBody (settings : list createSetting).

Definition sampleHTTP : HTTPLibs :=
  {| Body := sampleBody;
     Encoded := list CronEntry;
     DecodeCronString b :=
       match b with
       | cronStringBody cs => inr cs
       | _ => inl "unexpected JSON"
       end;
     DecodeSettings b :=
       match b with
       | settingsBody settings => inr settings
       | _ => inl "unexpected JSON"
       end;
     EncodeEntries entries := inr entries;
     EncodeEntry e := inr [e] |}.

(** A store that holds one scan entry and one report entry, accepts every
    write, and whose reads fail when its state says so. *)
Record flakyStore : Type := {
  scanReadFails : bool;
  reportReadFails : bool
}.

Definition flakyCronStore : CronStore :=
  {| Store := flakyStore;
     GetScanEntries st :=
       (if scanReadFails st then inl "GetObject failed"
        else inr {[ "a" := Sample.scanA "*/2 * * * *" ]}, st);
     SaveScanEntries entries st := (None, st);
     GetReportEntries st :=
       (if reportReadFails st then inl "GetObject failed"
        else inr {[ "t2" := Sample.reportT "t2" "*/5 * * * *" ]}, st);
     SaveReportEntries entries st := (None, st) |}.

End SampleLibs.

(** * Properties *)

Section Properties.
Context `{P : CronParser, S : CronStore, R : MapRange}.

Implicit Types (c : Crontinuous) (typ : CronType) (e : CronEntry).

(** ** Dispatch on the type tag *)

Lemma valid_type_cases typ :
  typ = ScanCronType ∨ typ = ReportCronType ∨
  (typ ≠ ScanCronType ∧ typ ≠ ReportCronType).
Proof.
  destruct (decide (typ = ScanCronType)); [by left|].
  destruct (decide (typ = ReportCronType)); [by right; left|].
  by right; right.
Qed.

Lemma stored_scan c id :
  stored ScanCronType c id = OfScan <$> scanEntries c !! id.
Proof. reflexivity. Qed.

Lemma stored_report c id :
  stored ReportCronType c id = OfReport <$> reportEntries c !! id.
Proof. reflexivity. Qed.

(** ** SaveEntry *)


(** ** The parse loop of BulkCreate *)

Lemma not_parses_inl e :
  ¬ parses e ↔ ∃ msg, ParseStandard (GetCronSpec e) = inl msg.
Proof.
  unfold parses. destruct (ParseStandard (GetCronSpec e)) as [msg|s].
  - split; [by eexists|]. by intros _ [s ?].
  - split; [|by intros [msg ?]]. intros H. destruct H. by eexists.
Qed.

Lemma parseEntries_malformed entries overwriteSettings i parsedEntries :
  (i + length entries ≤ length overwriteSettings)%nat →
  Exists (λ e, ¬ parses e) entries →
  parseEntries entries overwriteSettings i parsedEntries
  = Some (inl ErrMalformedSchedule).
Proof.
  revert i parsedEntries.
  induction entries as [|e rest IH]; intros i acc Hlen Hbad.
  - by apply Exists_nil in Hbad.
  - simpl in *. destruct (ParseStandard (GetCronSpec e)) as [msg|s] eqn:Hs.
    + done.
    + destruct (lookup_lt_is_Some_2 overwriteSettings i) as [o Ho]; [lia|].
      rewrite Ho. apply IH; [lia|].
      apply Exists_cons in Hbad as [Hbad|Hbad]; [|done].
      destruct Hbad. by exists s.
Qed.

(** When every spec parses the loop ends with the batch keyed by id:
    under each id, the last entry of the batch that has this id, with
    its own overwrite flag. *)
Lemma parseEntries_inr entries overwriteSettings i parsedEntries :
  Forall parses entries →
  (i + length entries ≤ length overwriteSettings)%nat →
  ∃ parsed,
    parseEntries entries overwriteSettings i parsedEntries
    = Some (inr parsed)
    ∧ ∀ id, parsed !! id =
        match lastWithID id (zip entries (drop i overwriteSettings)) with
        | Some (e, o) =>
            match ParseStandard (GetCronSpec e) with
            | inr s => Some {| entry := e; schedule := s;
                               overwriteEntry := o |}
            | inl _ => None
            end
        | None => parsedEntries !! id
        end.
Proof.
  revert i parsedEntries.
  induction entries as [|e rest IH]; intros i acc Hall Hlen.
  - exists acc. split; [done|]. intros id. by rewrite zip_with_nil_l.
  - apply Forall_cons in Hall as [[s Hs] Hall]. simpl in *. rewrite Hs.
    destruct (lookup_lt_is_Some_2 overwriteSettings i) as [o Ho]; [lia|].
    rewrite Ho.
    destruct (IH (Datatypes.S i)
                (<[GetID e := {| entry := e; schedule := s;
                                 overwriteEntry := o |}]> acc) Hall)
      as (parsed & Hparsed & Hlookup); [lia|].
    exists parsed. split; [done|]. intros id. rewrite Hlookup.
    rewrite (drop_S _ _ _ Ho). simpl.
    destruct (lastWithID id _) as [[e' o']|]; [done|].
    destruct (decide (GetID e = id)) as [<-|Hne].
    + by rewrite lookup_insert_eq, Hs.
    + by rewrite lookup_insert_ne.
Qed.

(** C2. For every batch given to BulkCreate (with an overwrite flag for
    every entry), if the cron spec of some entry fails to parse, the call
    returns the malformed-schedule error and the state is the one before
    the call: both tables, the storage and the scheduler are untouched
    and no lock was taken. *)
Theorem BulkCreate_malformed_schedule typ entries overwriteSettings c e :
  (length entries ≤ length overwriteSettings)%nat →
  e ∈ entries →
  ¬ parses e →
  BulkCreate typ entries overwriteSettings c
  = Some (Some ErrMalformedSchedule, c).
Proof.
  intros Hlen Hin Hbad. unfold BulkCreate.
  rewrite parseEntries_malformed; [done|done|].
  apply Exists_exists. by exists e.
Qed.

(** ** Unknown type tags *)

(** C6 (amended). For every call to one of the five public operations
    with a type tag that is neither Scan nor Report, the call fails
    before any lock is taken and leaves both tables, the storage and the
    scheduler unchanged.  The error is the invalid-type error, except
    that SaveEntry and BulkCreate, which parse the cron specs before
    they look at the tag, return the malformed-schedule error when a
    cron spec of the call fails to parse. *)
Theorem invalid_type_rejected typ c :
  typ ≠ ScanCronType →
  typ ≠ ReportCronType →
  GetEntries typ c = (inl ErrInvalidCronType, c)
  ∧ (∀ ID, GetEntryByID typ ID c = (inl ErrInvalidCronType, c))
  ∧ (∀ ID, RemoveEntry typ ID c = (Some ErrInvalidCronType, c))
  ∧ (∀ e, parses e → SaveEntry typ e c = (Some ErrInvalidCronType, c))
  ∧ (∀ e, ¬ parses e → SaveEntry typ e c = (Some ErrMalformedSchedule, c))
  ∧ (∀ entries overwriteSettings,
       (length entries ≤ length overwriteSettings)%nat →
       Forall parses entries →
       BulkCreate typ entries overwriteSettings c
       = Some (Some ErrInvalidCronType, c))
  ∧ (∀ entries overwriteSettings,
       (length entries ≤ length overwriteSettings)%nat →
       ¬ Forall parses entries →
       BulkCreate typ entries overwriteSettings c
       = Some (Some ErrMalformedSchedule, c)).
Proof.
  intros Hs Hr. repeat split.
  - unfold GetEntries. by rewrite !decide_False.
  - intros ID. unfold GetEntryByID. by rewrite !decide_False.
  - intros ID. unfold RemoveEntry. by rewrite !decide_False.
  - intros e [s Hparse]. unfold SaveEntry. rewrite Hparse.
    by rewrite !decide_False.
  - intros e [msg Hparse]%not_parses_inl. unfold SaveEntry.
    by rewrite Hparse.
  - intros entries flags Hlen Hall. unfold BulkCreate.
    destruct (parseEntries_inr entries flags 0 ∅ Hall)
      as (parsed & -> & _); [done|].
    unfold bulkDispatch. by rewrite !decide_False.
  - intros entries flags Hlen Hbad. unfold BulkCreate.
    rewrite parseEntries_malformed; [done|done|].
    by apply not_Forall_Exists; [apply _|].
Qed.

(** ** Ranging over a map *)

Lemma range_NoDup {A} (m : gmap string A) : NoDup (range m).*1.
Proof. rewrite range_perm. apply NoDup_fst_map_to_list. Qed.

Lemma elem_of_range {A} (m : gmap string A) k a :
  (k, a) ∈ range m ↔ m !! k = Some a.
Proof. rewrite range_perm. apply elem_of_map_to_list. Qed.

(** Copying a table under the ids of its entries gives the table back
    when every key is the id of its entry. *)
Lemma rekey_list_to_map {A} (key : A → string) (l : list (string * A))
    (acc : gmap string A) :
  NoDup l.*1 →
  (∀ k a, (k, a) ∈ l → key a = k) →
  foldl (λ current kv, <[key kv.2 := kv.2]> current) acc l
  = list_to_map l ∪ acc.
Proof.
  revert acc. induction l as [|[k a] l IH]; intros acc Hnd Hkey; simpl.
  - by rewrite (left_id_L ∅ (∪)).
  - apply NoDup_cons in Hnd as [Hk Hnd].
    rewrite (Hkey k a) by left.
    rewrite IH; [|done|by intros ???; apply Hkey; right].
    rewrite <- insert_union_r by by apply not_elem_of_list_to_map_1.
    by rewrite insert_union_l.
Qed.

Lemma rekey_id {A} (key : A → string) (m : gmap string A) :
  map_Forall (λ k a, key a = k) m →
  foldl (λ current kv, <[key kv.2 := kv.2]> current) ∅ (range m) = m.
Proof.
  intros Hkey. rewrite rekey_list_to_map.
  - rewrite (right_id_L ∅ (∪)).
    rewrite (list_to_map_proper (range m) (map_to_list m)).
    + apply list_to_map_to_list.
    + apply range_NoDup.
    + apply range_perm.
  - apply range_NoDup.
  - intros k a Hin%elem_of_range. by apply Hkey in Hin.
Qed.

Lemma copyScanEntries_id (m : gmap string ScanEntry) :
  map_Forall (λ k se, ProgramID se = k) m → copyScanEntries m = m.
Proof. apply (rekey_id ProgramID). Qed.

Lemma copyReportEntries_id (m : gmap string ReportEntry) :
  map_Forall (λ k re, ReportTeamID re = k) m → copyReportEntries m = m.
Proof. apply (rekey_id ReportTeamID). Qed.

(** ** The upsert loops of BulkCreate *)

(** An entry of the wrong variant stops the loop, wherever it is. *)
Lemma scanBulkLoop_malformed cfg items current scheduledJobs k item re :
  (k, item) ∈ items →
  entry item = OfReport re →
  scanBulkLoop cfg items current scheduledJobs = inl ErrMalformedEntry.
Proof.
  revert current scheduledJobs.
  induction items as [|[k' item'] items IH]; intros current jobs Hin Hre.
  - by apply elem_of_nil in Hin.
  - simpl. destruct (entry item') as [se|re'] eqn:He; [|done].
    apply elem_of_cons in Hin as [Heq|Hin].
    { inversion Heq; subst. congruence. }
    repeat case_match; by apply IH.
Qed.

Lemma reportBulkLoop_malformed cfg items current scheduledJobs k item se :
  (k, item) ∈ items →
  entry item = OfScan se →
  reportBulkLoop cfg items current scheduledJobs = inl ErrMalformedEntry.
Proof.
  revert current scheduledJobs.
  induction items as [|[k' item'] items IH]; intros current jobs Hin Hse.
  - by apply elem_of_nil in Hin.
  - simpl. destruct (entry item') as [se'|re] eqn:He; [done|].
    apply elem_of_cons in Hin as [Heq|Hin].
    { inversion Heq; subst. congruence. }
    repeat case_match; by apply IH.
Qed.

(** On items of the right variant with distinct ids the loop runs to its
    end; each id of the batch is written at most once, and only the jobs
    of ids of the batch are returned, each at most once. *)
Lemma scanBulkLoop_inr cfg items current scheduledJobs :
  NoDup items.*1 →
  (∀ k item, (k, item) ∈ items →
             ∃ se, entry item = OfScan se ∧ ProgramID se = k) →
  ∃ current' new,
    scanBulkLoop cfg items current scheduledJobs
    = inr (current', scheduledJobs ++ new)
    ∧ (∀ k item se, (k, item) ∈ items → entry item = OfScan se →
         current' !! k =
           if bool_decide (is_Some (current !! k))
              && negb (overwriteEntry item)
           then current !! k else Some se)
    ∧ (∀ id, id ∉ items.*1 → current' !! id = current !! id)
    ∧ sublist (js_id <$> new) items.*1.
Proof.
  revert current scheduledJobs.
  induction items as [|[k item] items IH]; intros current jobs Hnd Hscan.
  - exists current, []. simpl. rewrite (right_id_L [] (++)).
    repeat split; [|done..]. intros ??? Hin. by apply elem_of_nil in Hin.
  - apply NoDup_cons in Hnd as [Hk Hnd].
    destruct (Hscan k item) as (se & Hse & Hid); [by left|].
    assert (Hrest : ∀ k' item', (k', item') ∈ items →
              ∃ se', entry item' = OfScan se' ∧ ProgramID se' = k')
      by (intros ???; apply Hscan; by right).
    simpl. rewrite Hse, Hid.
    set (skip := bool_decide (is_Some (current !! k))
                 && negb (overwriteEntry item)).
    set (current1 := if skip then current else <[k := se]> current).
    assert (Hcur1 : current1 !! k = if skip then current !! k else Some se).
    { unfold current1. destruct skip; [done|]. by rewrite lookup_insert_eq. }
    assert (Hother : ∀ id, id ≠ k → current1 !! id = current !! id).
    { intros id Hne. unfold current1. destruct skip; [done|].
      by rewrite lookup_insert_ne. }
    assert (Hgoal : ∀ jobs1 new1, jobs1 = jobs ++ new1 →
              sublist (js_id <$> new1) [k] →
              ∃ current' new,
                scanBulkLoop cfg items current1 jobs1
                = inr (current', jobs ++ new)
                ∧ (∀ k0 item0 se0, (k0, item0) ∈ (k, item) :: items →
                     entry item0 = OfScan se0 →
                     current' !! k0 =
                       if bool_decide (is_Some (current !! k0))
                          && negb (overwriteEntry item0)
                       then current !! k0 else Some se0)
                ∧ (∀ id, id ∉ ((k, item) :: items).*1 →
                     current' !! id = current !! id)
                ∧ sublist (js_id <$> new) ((k, item) :: items).*1).
    { intros jobs1 new1 -> Hsub.
      destruct (IH current1 (jobs ++ new1) Hnd Hrest)
        as (current' & new & Hloop & Hin & Hout & Hjobs).
      exists current', (new1 ++ new). rewrite (assoc_L (++)).
      split; [done|]. split; [|split].
      - intros k0 item0 se0 [Heq|Hin0]%elem_of_cons Hse0.
        + inversion Heq; subst k0 item0.
          rewrite Hout by done. rewrite Hcur1.
          assert (se0 = se) as -> by congruence. done.
        + assert (k0 ≠ k).
          { intros ->. apply Hk. apply list_elem_of_fmap.
            by exists (k, item0). }
          rewrite (Hin k0 item0 se0) by done.
          by rewrite Hother.
      - intros id Hid'. rewrite fmap_cons in Hid'.
        apply not_elem_of_cons in Hid' as [Hne Hid'].
        rewrite Hout by done. by apply Hother.
      - rewrite fmap_app, fmap_cons.
        by apply (sublist_app _ [k]). }
    destruct skip eqn:Hskip.
    + apply (Hgoal jobs []); [by rewrite (right_id_L [] (++))|].
      apply sublist_nil_l.
    + destruct (negb (isTeamWhitelisted cfg ScanCronType (TeamID se))).
      * apply (Hgoal jobs []); [by rewrite (right_id_L [] (++))|].
        apply sublist_nil_l.
      * eapply Hgoal; [done|]. done.
Qed.

Lemma reportBulkLoop_inr cfg items current scheduledJobs :
  NoDup items.*1 →
  (∀ k item, (k, item) ∈ items →
             ∃ re, entry item = OfReport re ∧ ReportTeamID re = k) →
  ∃ current' new,
    reportBulkLoop cfg items current scheduledJobs
    = inr (current', scheduledJobs ++ new)
    ∧ (∀ k item re, (k, item) ∈ items → entry item = OfReport re →
         current' !! k =
           if bool_decide (is_Some (current !! k))
              && negb (overwriteEntry item)
           then current !! k else Some re)
    ∧ (∀ id, id ∉ items.*1 → current' !! id = current !! id)
    ∧ sublist (js_id <$> new) items.*1.
Proof.
  revert current scheduledJobs.
  induction items as [|[k item] items IH]; intros current jobs Hnd Hreport.
  - exists current, []. simpl. rewrite (right_id_L [] (++)).
    repeat split; [|done..]. intros ??? Hin. by apply elem_of_nil in Hin.
  - apply NoDup_cons in Hnd as [Hk Hnd].
    destruct (Hreport k item) as (re & Hre & Hid); [by left|].
    assert (Hrest : ∀ k' item', (k', item') ∈ items →
              ∃ re', entry item' = OfReport re' ∧ ReportTeamID re' = k')
      by (intros ???; apply Hreport; by right).
    simpl. rewrite Hre, Hid.
    set (skip := bool_decide (is_Some (current !! k))
                 && negb (overwriteEntry item)).
    set (current1 := if skip then current else <[k := re]> current).
    assert (Hcur1 : current1 !! k = if skip then current !! k else Some re).
    { unfold current1. destruct skip; [done|]. by rewrite lookup_insert_eq. }
    assert (Hother : ∀ id, id ≠ k → current1 !! id = current !! id).
    { intros id Hne. unfold current1. destruct skip; [done|].
      by rewrite lookup_insert_ne. }
    assert (Hgoal : ∀ jobs1 new1, jobs1 = jobs ++ new1 →
              sublist (js_id <$> new1) [k] →
              ∃ current' new,
                reportBulkLoop cfg items current1 jobs1
                = inr (current', jobs ++ new)
                ∧ (∀ k0 item0 re0, (k0, item0) ∈ (k, item) :: items →
                     entry item0 = OfReport re0 →
                     current' !! k0 =
                       if bool_decide (is_Some (current !! k0))
                          && negb (overwriteEntry item0)
                       then current !! k0 else Some re0)
                ∧ (∀ id, id ∉ ((k, item) :: items).*1 →
                     current' !! id = current !! id)
                ∧ sublist (js_id <$> new) ((k, item) :: items).*1).
    { intros jobs1 new1 -> Hsub.
      destruct (IH current1 (jobs ++ new1) Hnd Hrest)
        as (current' & new & Hloop & Hin & Hout & Hjobs).
      exists current', (new1 ++ new). rewrite (assoc_L (++)).
      split; [done|]. split; [|split].
      - intros k0 item0 re0 [Heq|Hin0]%elem_of_cons Hre0.
        + inversion Heq; subst k0 item0.
          rewrite Hout by done. rewrite Hcur1.
          assert (re0 = re) as -> by congruence. done.
        + assert (k0 ≠ k).
          { intros ->. apply Hk. apply list_elem_of_fmap.
            by exists (k, item0). }
          rewrite (Hin k0 item0 re0) by done.
          by rewrite Hother.
      - intros id Hid'. rewrite fmap_cons in Hid'.
        apply not_elem_of_cons in Hid' as [Hne Hid'].
        rewrite Hout by done. by apply Hother.
      - rewrite fmap_app, fmap_cons.
        by apply (sublist_app _ [k]). }
    destruct skip eqn:Hskip.
    + apply (Hgoal jobs []); [by rewrite (right_id_L [] (++))|].
      apply sublist_nil_l.
    + destruct (negb (isTeamWhitelisted cfg ReportCronType k)).
      * apply (Hgoal jobs []); [by rewrite (right_id_L [] (++))|].
        apply sublist_nil_l.
      * eapply Hgoal; [done|]. done.
Qed.

(** ** The keyed batch *)

Lemma lastWithID_Some id (batch : list (CronEntry * bool)) e o :
  lastWithID id batch = Some (e, o) → GetID e = id ∧ (e, o) ∈ batch.
Proof.
  induction batch as [|[e' o'] batch IH]; simpl; [done|].
  destruct (lastWithID id batch) as [item|].
  - intros [= ->]. destruct IH as [? ?]; [done|]. split; [done|by right].
  - case_decide; [|done]. intros [= -> ->]. split; [done|by left].
Qed.

Lemma lastWithID_None id (batch : list (CronEntry * bool)) e o :
  lastWithID id batch = None → (e, o) ∈ batch → GetID e ≠ id.
Proof.
  induction batch as [|[e' o'] batch IH]; simpl.
  - intros _ Hin. by apply elem_of_nil in Hin.
  - destruct (lastWithID id batch) as [item|]; [done|].
    case_decide; [done|].
    intros _ [[= -> ->]|Hin]%elem_of_cons; [done|]. by apply IH.
Qed.


Lemma parseEntries_keyed entries overwriteSettings :
  Forall parses entries →
  (length entries ≤ length overwriteSettings)%nat →
  ∃ parsed,
    parseEntries entries overwriteSettings 0 ∅ = Some (inr parsed)
    ∧ keyedBatch parsed (zip entries overwriteSettings).
Proof.
  intros Hall Hlen.
  destruct (parseEntries_inr entries overwriteSettings 0 ∅ Hall)
    as (parsed & Hparsed & Hlookup); [done|].
  exists parsed. split; [done|]. intros id. rewrite Hlookup, drop_0.
  destruct (lastWithID id _) as [[e o]|]; [done|]. apply lookup_empty.
Qed.

Lemma keyedBatch_Some parsed batch k item :
  keyedBatch parsed batch →
  parsed !! k = Some item →
  lastWithID k batch = Some (entry item, overwriteEntry item)
  ∧ GetID (entry item) = k
  ∧ (entry item, overwriteEntry item) ∈ batch.
Proof.
  intros Hkeyed Hk. rewrite Hkeyed in Hk.
  destruct (lastWithID k batch) as [[e o]|] eqn:Hlast; [|done].
  destruct (ParseStandard (GetCronSpec e)) as [msg|s]; [done|].
  injection Hk as <-. simpl.
  by destruct (lastWithID_Some _ _ _ _ Hlast).
Qed.

Lemma keyedBatch_None parsed batch k :
  keyedBatch parsed batch →
  Forall parses batch.*1 →
  parsed !! k = None →
  lastWithID k batch = None.
Proof.
  intros Hkeyed Hall Hk. rewrite Hkeyed in Hk.
  destruct (lastWithID k batch) as [[e o]|] eqn:Hlast; [|done].
  destruct (lastWithID_Some _ _ _ _ Hlast) as [_ Hin].
  assert (parses e) as [s Hs].
  { eapply (proj1 (Forall_forall _ _) Hall).
    apply list_elem_of_fmap. by exists (e, o). }
  by rewrite Hs in Hk.
Qed.

Lemma fmap_bulk_lookup {A} (f : A → CronEntry) (old : option A) a o :
  f <$> (if bool_decide (is_Some old) && negb o then old else Some a)
  = bulkResult (f <$> old) (Some (f a, o)).
Proof. destruct old, o; reflexivity. Qed.

(** ** BulkCreate on a batch that passes validation *)

Lemma scanBulkCreate_valid parsed batch c :
  keyedBatch parsed batch →
  Forall parses batch.*1 →
  Forall (hasType ScanCronType) batch.*1 →
  map_Forall (λ k se, ProgramID se = k) (scanEntries c) →
  ∃ current' new,
    scanBulkCreate parsed c
    = ((new, External <$> (SaveScanEntries current' (storage c)).1),
       set_storage (SaveScanEntries current' (storage c)).2
         (set_scanEntries current' (lock_scanMux Lock c)))
    ∧ (∀ id, OfScan <$> current' !! id
             = bulkResult (OfScan <$> scanEntries c !! id)
                          (lastWithID id batch))
    ∧ NoDup (js_id <$> new)
    ∧ (∀ j, j ∈ new → is_Some (lastWithID (js_id j) batch)).
Proof.
  intros Hkeyed Hparse Hty Hwk.
  destruct (scanBulkLoop_inr (config c) (range parsed) (scanEntries c) [])
    as (current' & new & Hloop & Hin & Hout & Hsub).
  { apply range_NoDup. }
  { intros k item Hk%elem_of_range.
    destruct (keyedBatch_Some _ _ _ _ Hkeyed Hk) as (_ & Hid & Hmem).
    assert (hasType ScanCronType (entry item)) as Hscan.
    { eapply (proj1 (Forall_forall _ _) Hty).
      apply list_elem_of_fmap. by eexists (_, _). }
    destruct (entry item) as [se|re]; [by exists se|done]. }
  exists current', new. split; [|split; [|split]].
  - unfold scanBulkCreate. simpl. rewrite copyScanEntries_id by done.
    rewrite Hloop. simpl.
    destruct (SaveScanEntries current' (storage c)). reflexivity.
  - intros id. destruct (parsed !! id) as [item|] eqn:Hp.
    + destruct (keyedBatch_Some _ _ _ _ Hkeyed Hp) as (Hlast & Hid & Hmem).
      assert (hasType ScanCronType (entry item)) as Hscan.
      { eapply (proj1 (Forall_forall _ _) Hty).
        apply list_elem_of_fmap. by eexists (_, _). }
      destruct (entry item) as [se|re] eqn:He; [|done].
      rewrite Hlast, (Hin id item se) by (by try apply elem_of_range).
      apply fmap_bulk_lookup.
    + rewrite (keyedBatch_None _ _ _ Hkeyed Hparse Hp). simpl.
      rewrite Hout; [done|].
      intros ([k item] & -> & Hk%elem_of_range)%list_elem_of_fmap.
      simpl in Hp. congruence.
  - apply (sublist_NoDup _ _ (range_NoDup parsed) Hsub).
  - intros j Hj.
    assert (js_id j ∈ (range parsed).*1) as Hk.
    { eapply elem_of_sublist; [|done]. by apply list_elem_of_fmap_2. }
    apply list_elem_of_fmap in Hk as ([k item] & -> & Hk%elem_of_range).
    simpl. destruct (keyedBatch_Some _ _ _ _ Hkeyed Hk) as (-> & _).
    by eexists.
Qed.


Lemma reportBulkCreate_valid parsed batch c :
  keyedBatch parsed batch →
  Forall parses batch.*1 →
  Forall (hasType ReportCronType) batch.*1 →
  map_Forall (λ k re, ReportTeamID re = k) (reportEntries c) →
  ∃ current' new,
    reportBulkCreate parsed c
    = ((new, External <$> (SaveReportEntries current' (storage c)).1),
       set_storage (SaveReportEntries current' (storage c)).2
         (set_reportEntries current' (lock_reportMux Lock c)))
    ∧ (∀ id, OfReport <$> current' !! id
             = bulkResult (OfReport <$> reportEntries c !! id)
                          (lastWithID id batch))
    ∧ NoDup (js_id <$> new)
    ∧ (∀ j, j ∈ new → is_Some (lastWithID (js_id j) batch)).
Proof.
  intros Hkeyed Hparse Hty Hwk.
  destruct (reportBulkLoop_inr (config c) (range parsed) (reportEntries c) [])
    as (current' & new & Hloop & Hin & Hout & Hsub).
  { apply range_NoDup. }
  { intros k item Hk%elem_of_range.
    destruct (keyedBatch_Some _ _ _ _ Hkeyed Hk) as (_ & Hid & Hmem).
    assert (hasType ReportCronType (entry item)) as Hreport.
    { eapply (proj1 (Forall_forall _ _) Hty).
      apply list_elem_of_fmap. by eexists (_, _). }
    destruct (entry item) as [se|re]; [done|by exists re]. }
  exists current', new. split; [|split; [|split]].
  - unfold reportBulkCreate. simpl. rewrite copyReportEntries_id by done.
    rewrite Hloop. simpl.
    destruct (SaveReportEntries current' (storage c)). reflexivity.
  - intros id. destruct (parsed !! id) as [item|] eqn:Hp.
    + destruct (keyedBatch_Some _ _ _ _ Hkeyed Hp) as (Hlast & Hid & Hmem).
      assert (hasType ReportCronType (entry item)) as Hreport.
      { eapply (proj1 (Forall_forall _ _) Hty).
        apply list_elem_of_fmap. by eexists (_, _). }
      destruct (entry item) as [se|re] eqn:He; [done|].
      rewrite Hlast, (Hin id item re) by (by try apply elem_of_range).
      apply fmap_bulk_lookup.
    + rewrite (keyedBatch_None _ _ _ Hkeyed Hparse Hp). simpl.
      rewrite Hout; [done|].
      intros ([k item] & -> & Hk%elem_of_range)%list_elem_of_fmap.
      simpl in Hp. congruence.
  - apply (sublist_NoDup _ _ (range_NoDup parsed) Hsub).
  - intros j Hj.
    assert (js_id j ∈ (range parsed).*1) as Hk.
    { eapply elem_of_sublist; [|done]. by apply list_elem_of_fmap_2. }
    apply list_elem_of_fmap in Hk as ([k item] & -> & Hk%elem_of_range).
    simpl. destruct (keyedBatch_Some _ _ _ _ Hkeyed Hk) as (-> & _).
    by eexists.
Qed.


Lemma BulkCreate_valid typ entries overwriteSettings c :
  typ = ScanCronType ∨ typ = ReportCronType →
  (length entries ≤ length overwriteSettings)%nat →
  Forall parses entries →
  Forall (hasType typ) entries →
  wellKeyed c →
  ∃ r c' new,
    BulkCreate typ entries overwriteSettings c = Some (r, c')
    ∧ (∀ id, stored typ c' id
             = bulkResult (stored typ c id)
                 (lastWithID id (zip entries overwriteSettings)))
    ∧ r = External <$> (persist typ c' (storage c)).1
    ∧ storage c' = (persist typ c' (storage c)).2
    ∧ cron c' = match r with
                | Some _ => cron c
                | None => scheduleAll new (cron c)
                end
    ∧ NoDup (js_id <$> new)
    ∧ (∀ j, j ∈ new →
         is_Some (lastWithID (js_id j) (zip entries overwriteSettings))).
Proof.
  intros Htyp Hlen Hparse Hty [Hscan Hreport].
  destruct (parseEntries_keyed entries overwriteSettings Hparse Hlen)
    as (parsed & Hparsed & Hkeyed).
  unfold BulkCreate. rewrite Hparsed. unfold bulkDispatch.
  rewrite <- (fst_zip entries overwriteSettings) in Hparse, Hty by done.
  destruct Htyp as [-> | ->].
  - destruct (scanBulkCreate_valid parsed _ c Hkeyed Hparse Hty Hscan)
      as (current' & new & Hbulk & Hlookup & Hnd & Hjobs).
    rewrite decide_True by done. rewrite Hbulk.
    destruct (SaveScanEntries current' (storage c)) as [[msg|] st] eqn:Hsave;
      simpl; eexists _, _, new; (split; [reflexivity|]);
      unfold persist; rewrite decide_True by done; simpl; rewrite Hsave;
      by repeat split.
  - destruct (reportBulkCreate_valid parsed _ c Hkeyed Hparse Hty Hreport)
      as (current' & new & Hbulk & Hlookup & Hnd & Hjobs).
    rewrite decide_False, decide_True by done. rewrite Hbulk.
    destruct (SaveReportEntries current' (storage c)) as [[msg|] st]
      eqn:Hsave;
      simpl; eexists _, _, new; (split; [reflexivity|]);
      unfold persist; rewrite decide_False by done; simpl; rewrite Hsave;
      by repeat split.
Qed.


(** ** SaveEntry on a valid entry *)

Lemma hasType_cases typ e :
  typ = ScanCronType ∨ typ = ReportCronType →
  hasType typ e →
  (typ = ScanCronType ∧ ∃ se, e = OfScan se)
  ∨ (typ = ReportCronType ∧ ∃ re, e = OfReport re).
Proof. destruct e as [se|re]; simpl; intros _ ->; eauto. Qed.

Lemma SaveEntry_valid typ e c s :
  typ = ScanCronType ∨ typ = ReportCronType →
  ParseStandard (GetCronSpec e) = inr s →
  hasType typ e →
  ∃ c',
    SaveEntry typ e c = (External <$> (persist typ c' (storage c)).1, c')
    ∧ stored typ c' (GetID e) = Some e
    ∧ storage c' = (persist typ c' (storage c)).2
    ∧ cron c' =
        match (persist typ c' (storage c)).1 with
        | Some _ => cron c
        | None =>
            if isTeamWhitelisted (config c) typ (team e)
            then cron c ++ [cron_Schedule s (jobOf e) (GetID e)]
            else cron c
        end.
Proof.
  intros Htyp Hs Hty. unfold SaveEntry. rewrite Hs.
  destruct (hasType_cases _ _ Htyp Hty) as [[-> [se ->]]|[-> [re ->]]].
  - rewrite decide_True by done. unfold saveScanEntry, persist. simpl.
    destruct (SaveScanEntries _ (storage c)) as [[msg|] st] eqn:Hsave;
      [|destruct (isTeamWhitelisted _ _ _) eqn:Hw]; simpl;
      (match goal with |- ∃ c', (_, ?x) = _ ∧ _ => exists x end);
      rewrite stored_scan; simpl; rewrite Hsave, lookup_insert_eq; simpl;
      by rewrite ?Hw.
  - rewrite decide_False, decide_True by done.
    unfold saveReportEntry, persist. simpl.
    destruct (SaveReportEntries _ (storage c)) as [[msg|] st] eqn:Hsave;
      [|destruct (isTeamWhitelisted _ _ _) eqn:Hw]; simpl;
      (match goal with |- ∃ c', (_, ?x) = _ ∧ _ => exists x end);
      rewrite stored_report; simpl; rewrite Hsave, lookup_insert_eq; simpl;
      by rewrite ?Hw.
Qed.




(** C5. For SaveEntry and BulkCreate on a cron type Scan or Report and
    on input that passes validation, the in-memory table has the
    mutation after the call whatever the store answers: the saved entry
    is under its id, and each id of the batch holds what the bulk upsert
    put there.  If the persistence call of the operation, the store's
    save of that table on the storage as it was before the call, fails,
    the operation returns that very error, and it calls the scheduler
    no more. *)
Theorem persistence_failure_keeps_mutation typ c :
  typ = ScanCronType ∨ typ = ReportCronType →
  (∀ e, parses e → hasType typ e →
     ∃ r c',
       SaveEntry typ e c = (r, c')
       ∧ stored typ c' (GetID e) = Some e
       ∧ ∀ msg, (persist typ c' (storage c)).1 = Some msg →
           r = Some (External msg) ∧ cron c' = cron c)
  ∧ (∀ entries overwriteSettings,
       (length entries ≤ length overwriteSettings)%nat →
       Forall parses entries →
       Forall (hasType typ) entries →
       wellKeyed c →
       ∃ r c',
         BulkCreate typ entries overwriteSettings c = Some (r, c')
         ∧ (∀ id, stored typ c' id
                  = bulkResult (stored typ c id)
                      (lastWithID id (zip entries overwriteSettings)))
         ∧ ∀ msg, (persist typ c' (storage c)).1 = Some msg →
             r = Some (External msg) ∧ cron c' = cron c).
Proof.
  intros Htyp. split.
  - intros e [s Hs] Hty.
    destruct (SaveEntry_valid typ e c s Htyp Hs Hty)
      as (c' & Hsave & Hstored & Hst & Hcron).
    eexists _, c'. split; [exact Hsave|]. split; [done|].
    intros msg Hmsg. by rewrite Hmsg in Hcron |- *.
  - intros entries flags Hlen Hparse Hty Hwk.
    destruct (BulkCreate_valid typ entries flags c Htyp Hlen Hparse Hty Hwk)
      as (r & c' & new & Hbulk & Hlookup & Hr & Hst & Hcron & _).
    exists r, c'. split; [done|]. split; [done|].
    intros msg Hmsg. rewrite Hmsg in Hr. by subst r.
Qed.

(** ** RemoveEntry *)

(** C8. For a cron type Scan or Report and an id absent from the table
    of the type, RemoveEntry(type, id) returns the ScheduleNotFound
    error and leaves both tables, the storage and the scheduler as they
    were: nothing is persisted and no job is removed. *)
Theorem RemoveEntry_absent typ ID c :
  typ = ScanCronType ∨ typ = ReportCronType →
  stored typ c ID = None →
  ∃ c',
    RemoveEntry typ ID c = (Some ErrScheduleNotFound, c')
    ∧ scanEntries c' = scanEntries c
    ∧ reportEntries c' = reportEntries c
    ∧ storage c' = storage c
    ∧ cron c' = cron c.
Proof.
  unfold RemoveEntry, removeScanEntry, removeReportEntry.
  intros [-> | ->]; [rewrite stored_scan|rewrite stored_report];
    intros Habsent%fmap_None; simpl; rewrite Habsent; by eexists.
Qed.


(** ** Items of a batch and the keyed batch *)

Lemma lastWithID_absent id (batch : list (CronEntry * bool)) :
  (∀ j e o, batch !! j = Some (e, o) → GetID e ≠ id) →
  lastWithID id batch = None.
Proof.
  induction batch as [|[e o] batch IH]; intros Hne; simpl; [done|].
  rewrite IH by (intros j e' o' Hj; by apply (Hne (Datatypes.S j) e' o')).
  rewrite decide_False; [done|]. by apply (Hne 0%nat e o).
Qed.

Lemma lastWithID_last (batch : list (CronEntry * bool)) i e o :
  batch !! i = Some (e, o) →
  (∀ j e' o', (i < j)%nat → batch !! j = Some (e', o') →
              GetID e' ≠ GetID e) →
  lastWithID (GetID e) batch = Some (e, o).
Proof.
  revert i. induction batch as [|[e0 o0] batch IH]; intros i Hi Hlater.
  - done.
  - simpl. destruct i as [|i]; simpl in Hi.
    + injection Hi as -> ->. rewrite lastWithID_absent.
      * by rewrite decide_True.
      * intros j e' o' Hj. apply (Hlater (Datatypes.S j) e' o'); [lia|done].
    + rewrite (IH i); [done|done|].
      intros j e' o' Hij Hj.
      apply (Hlater (Datatypes.S j) e' o'); [lia|done].
Qed.

Lemma lastWithID_zip_last entries overwriteSettings i e o :
  entries !! i = Some e →
  overwriteSettings !! i = Some o →
  (∀ j e', (i < j)%nat → entries !! j = Some e' → GetID e' ≠ GetID e) →
  lastWithID (GetID e) (zip entries overwriteSettings) = Some (e, o).
Proof.
  intros He Ho Hlater. apply (lastWithID_last _ i).
  - apply lookup_zip_with_Some. by exists e, o.
  - intros j e' o' Hij Hj.
    apply lookup_zip_with_Some in Hj as (x & y & [= -> ->] & Hx & Hy).
    by apply (Hlater j).
Qed.

(** ** BulkCreate: the overwrite flags *)


(** ** BulkCreate: several entries with one id *)

Lemma keyedBatch_eq parsed1 parsed2 batch1 batch2 :
  keyedBatch parsed1 batch1 →
  keyedBatch parsed2 batch2 →
  (∀ id, lastWithID id batch1 = lastWithID id batch2) →
  parsed1 = parsed2.
Proof.
  intros H1 H2 Hsame. apply map_eq. intros id.
  by rewrite H1, H2, Hsame.
Qed.

(** C10. When the cron specs of a BulkCreate batch parse, the first loop
    leaves the batch keyed by id: under each id, the last entry of the
    input sequence with this id and its own overwrite flag; the rest of
    the call only sees this keyed batch, so the earlier entries are
    replaced before the table is touched, and two batches with the same
    last occurrences are one batch for the type's manager.  At most one
    entry per id is applied: on a batch of the type's variant the table
    holds, under each id, either what it held or the last occurrence, and
    no two of the jobs handed to the scheduler have the same id. *)
Theorem BulkCreate_last_occurrence_wins typ entries overwriteSettings c :
  (length entries ≤ length overwriteSettings)%nat →
  Forall parses entries →
  (∃ parsed,
     parseEntries entries overwriteSettings 0 ∅ = Some (inr parsed)
     ∧ keyedBatch parsed (zip entries overwriteSettings)
     ∧ BulkCreate typ entries overwriteSettings c
       = Some (bulkDispatch typ parsed c))
  ∧ (∀ entries2 overwriteSettings2,
       (length entries2 ≤ length overwriteSettings2)%nat →
       Forall parses entries2 →
       (∀ id, lastWithID id (zip entries overwriteSettings)
              = lastWithID id (zip entries2 overwriteSettings2)) →
       parseEntries entries overwriteSettings 0 ∅
       = parseEntries entries2 overwriteSettings2 0 ∅)
  ∧ (typ = ScanCronType ∨ typ = ReportCronType →
     Forall (hasType typ) entries →
     wellKeyed c →
     ∃ r c' new,
       BulkCreate typ entries overwriteSettings c = Some (r, c')
       ∧ (∀ id, stored typ c' id
                = match lastWithID id (zip entries overwriteSettings) with
                  | Some (e, o) =>
                      if bool_decide (is_Some (stored typ c id)) && negb o
                      then stored typ c id else Some e
                  | None => stored typ c id
                  end)
       ∧ cron c' = match r with
                   | Some _ => cron c
                   | None => scheduleAll new (cron c)
                   end
       ∧ NoDup (js_id <$> new)).
Proof.
  intros Hlen Hparse.
  destruct (parseEntries_keyed entries overwriteSettings Hparse Hlen)
    as (parsed & Hparsed & Hkeyed).
  split; [|split].
  - exists parsed. unfold BulkCreate. by rewrite Hparsed.
  - intros entries2 flags2 Hlen2 Hparse2 Hsame.
    destruct (parseEntries_keyed entries2 flags2 Hparse2 Hlen2)
      as (parsed2 & Hparsed2 & Hkeyed2).
    rewrite Hparsed, Hparsed2.
    by rewrite (keyedBatch_eq _ _ _ _ Hkeyed Hkeyed2 Hsame).
  - intros Htyp Hty Hwk.
    destruct (BulkCreate_valid typ entries overwriteSettings c
                Htyp Hlen Hparse Hty Hwk)
      as (r & c' & new & Hbulk & Hlookup & _ & _ & Hcron & Hnd & _).
    by exists r, c', new.
Qed.

(** ** Entries of the wrong variant *)

(** C9 (amended). For a cron type Scan or Report: a SaveEntry call
    whose entry has a cron spec that parses and a variant that is not
    the one of the type fails with the malformed-entry error and leaves
    the state as it was.  A BulkCreate call whose cron specs all parse
    and in which an entry of the wrong variant is the last one with its
    id fails with the malformed-entry error, wherever the entry is met
    in the batch, and leaves both tables, the storage and the scheduler
    as they were: nothing is persisted and no job is registered. *)
Theorem variant_mismatch_rejected typ c :
  typ = ScanCronType ∨ typ = ReportCronType →
  (∀ e, parses e → ¬ hasType typ e →
     SaveEntry typ e c = (Some ErrMalformedEntry, c))
  ∧ (∀ entries overwriteSettings i e,
       (length entries ≤ length overwriteSettings)%nat →
       Forall parses entries →
       entries !! i = Some e →
       ¬ hasType typ e →
       (∀ j e', (i < j)%nat → entries !! j = Some e' →
                GetID e' ≠ GetID e) →
       ∃ c',
         BulkCreate typ entries overwriteSettings c
         = Some (Some ErrMalformedEntry, c')
         ∧ scanEntries c' = scanEntries c
         ∧ reportEntries c' = reportEntries c
         ∧ storage c' = storage c
         ∧ cron c' = cron c).
Proof.
  intros Htyp. split.
  - intros e [s Hs] Hty. unfold SaveEntry. rewrite Hs.
    destruct Htyp as [-> | ->], e as [se|re]; simpl in *; done.
  - intros entries flags i e Hlen Hparse He Hty Hlast.
    destruct (parseEntries_keyed entries flags Hparse Hlen)
      as (parsed & Hparsed & Hkeyed).
    destruct (lookup_lt_is_Some_2 flags i) as [o Ho].
    { apply lookup_lt_Some in He. lia. }
    assert (∃ item, (GetID e, item) ∈ range parsed ∧ entry item = e)
      as (item & Hitem & Hentry).
    { pose proof (Hkeyed (GetID e)) as Hk.
      rewrite (lastWithID_zip_last _ _ i e o) in Hk by done.
      assert (parses e) as [s Hs].
      { eapply (proj1 (Forall_forall _ _) Hparse).
        by eapply list_elem_of_lookup_2. }
      rewrite Hs in Hk. eexists. split; [by apply elem_of_range|done]. }
    unfold BulkCreate. rewrite Hparsed. unfold bulkDispatch.
    destruct Htyp as [-> | ->], e as [se|re]; simpl in Hty; try done.
    + rewrite decide_True by done. unfold scanBulkCreate.
      rewrite (scanBulkLoop_malformed _ _ _ _ _ _ _ Hitem Hentry).
      by eexists.
    + rewrite decide_False, decide_True by done. unfold reportBulkCreate.
      rewrite (reportBulkLoop_malformed _ _ _ _ _ _ _ Hitem Hentry).
      by eexists.
Qed.


(** ** Start *)

Lemma buildScanLoop_bad cfg items scanSchedules k se :
  (k, se) ∈ items →
  isTeamWhitelisted cfg ScanCronType (TeamID se) = true →
  ¬ parses (OfScan se) →
  ∃ err, buildScanLoop cfg items scanSchedules = inl err.
Proof.
  intros Hin Hw [msg Hbad]%not_parses_inl. simpl in Hbad.
  revert scanSchedules.
  induction items as [|[k' se'] items IH]; intros acc.
  - by apply elem_of_nil in Hin.
  - simpl. apply elem_of_cons in Hin as [[= <- <-]|Hin].
    + rewrite Hw, Hbad. by eexists.
    + destruct (negb _); [by apply IH|].
      destruct (ParseStandard (CronSpec se')); [by eexists|by apply IH].
Qed.

Lemma buildReportLoop_bad cfg items reportSchedules k re :
  (k, re) ∈ items →
  isTeamWhitelisted cfg ReportCronType (ReportTeamID re) = true →
  ¬ parses (OfReport re) →
  ∃ err, buildReportLoop cfg items reportSchedules = inl err.
Proof.
  intros Hin Hw [msg Hbad]%not_parses_inl. simpl in Hbad.
  revert reportSchedules.
  induction items as [|[k' re'] items IH]; intros acc.
  - by apply elem_of_nil in Hin.
  - simpl. apply elem_of_cons in Hin as [[= <- <-]|Hin].
    + rewrite Hw, Hbad. by eexists.
    + destruct (negb _); [by apply IH|].
      destruct (ParseStandard (ReportCronSpec re'));
        [by eexists|by apply IH].
Qed.

(** C4. If, among the scan entries or the report entries that Start
    loads from the store, an entry whose team passes the whitelist check
    has a cron spec that fails to parse, Start returns an error and the
    scheduler it created has received no call: no job is registered,
    neither the jobs of the other entries nor a job for the bad one, and
    the clock is not started. *)
Theorem Start_fails_on_bad_spec c :
  (∃ m st k se,
     GetScanEntries (storage c) = (inr m, st)
     ∧ m !! k = Some se
     ∧ isTeamWhitelisted (config c) ScanCronType (TeamID se) = true
     ∧ ¬ parses (OfScan se))
  ∨ (∃ m st k re,
       GetReportEntries (GetScanEntries (storage c)).2 = (inr m, st)
       ∧ m !! k = Some re
       ∧ isTeamWhitelisted (config c) ReportCronType (ReportTeamID re)
         = true
       ∧ ¬ parses (OfReport re)) →
  ∃ err c', Start c = (Some err, c') ∧ cron c' = cron_New.
Proof.
  intros Hbad. unfold Start, buildScanEntries. simpl.
  destruct Hbad as [(m & st & k & se & Hget & Hk & Hw & Hbad)
                   |(m & st & k & re & Hget & Hk & Hw & Hbad)].
  - rewrite Hget. simpl.
    destruct (buildScanLoop_bad (config c) (range m) [] k se)
      as [err ->]; [by apply elem_of_range|done|done|].
    by eexists _, _.
  - destruct (GetScanEntries (storage c)) as [[msg|scans] st1];
      simpl in *; [by eexists _, _|].
    destruct (buildScanLoop _ _ _) as [err|scanSchedules];
      [by eexists _, _|].
    unfold buildReportEntries. simpl. rewrite Hget. simpl.
    destruct (buildReportLoop_bad (config c) (range m) [] k re)
      as [err ->]; [by apply elem_of_range|done|done|].
    by eexists _, _.
Qed.

End Properties.

(** * The theorems on concrete inputs *)

Section Examples.
#[local] Existing Instances fiveFieldParser memCronStore listRange.
Import Sample.
Open Scope string_scope.


Lemma BulkCreate_malformed_schedule_witness :
  let c := running noWhitelist emptyStore in
  let bad := OfScan (scanA "every minute") in
  let entries := [OfScan (scanB "*/3 * * * *"); bad] in
  let overwriteSettings := [false; true] in
  (length entries ≤ length overwriteSettings)%nat
  ∧ bad ∈ entries
  ∧ ¬ parses bad
  ∧ BulkCreate ScanCronType entries overwriteSettings c
    = Some (Some ErrMalformedSchedule, c).
Proof.
  intros c bad entries overwriteSettings.
  assert (length entries ≤ length overwriteSettings)%nat as Hlen
    by (simpl; lia).
  assert (bad ∈ entries) as Hin by (right; left).
  assert (¬ parses bad) as Hbad by compute_done.
  do 3 (split; [done|]).
  by apply (BulkCreate_malformed_schedule ScanCronType entries
              overwriteSettings c bad).
Defined.


Lemma Start_fails_on_bad_spec_witness :
  let c := NewCrontinuous noWhitelist badScanStore in
  let se := {| ProgramID := "a"; TeamID := "t1";
               CronSpec := "every minute" |} in
  (GetScanEntries (storage c) = (inr {[ "a" := se ]}, badScanStore)
   ∧ ({[ "a" := se ]} : gmap string ScanEntry) !! "a" = Some se
   ∧ isTeamWhitelisted (config c) ScanCronType (TeamID se) = true
   ∧ ¬ parses (OfScan se))
  ∧ ∃ err c', Start c = (Some err, c') ∧ cron c' = cron_New.
Proof.
  intros c se.
  assert (¬ parses (OfScan se)) as Hbad by compute_done.
  split; [by do 3 (split; [done|])|].
  apply (Start_fails_on_bad_spec c). left.
  exists {[ "a" := se ]}, badScanStore, "a", se.
  by do 3 (split; [done|]).
Defined.

Lemma persistence_failure_keeps_mutation_witness :
  let c := running noWhitelist brokenStore in
  let e := OfScan (scanB "* * * * *") in
  let entries :=
    [OfScan (scanA "*/9 * * * *"); OfScan (scanB "*/3 * * * *")] in
  let overwriteSettings := [true; false] in
  (parses e ∧ hasType ScanCronType e
   ∧ ∃ r c',
       SaveEntry ScanCronType e c = (r, c')
       ∧ stored ScanCronType c' (GetID e) = Some e
       ∧ (persist ScanCronType c' (storage c)).1 = Some "PutObject failed"
       ∧ r = Some (External "PutObject failed")
       ∧ cron c' = cron c)
  ∧ ((length entries ≤ length overwriteSettings)%nat
     ∧ Forall parses entries
     ∧ Forall (hasType ScanCronType) entries
     ∧ wellKeyed c
     ∧ ∃ r c',
         BulkCreate ScanCronType entries overwriteSettings c = Some (r, c')
         ∧ stored ScanCronType c' "a" = Some (OfScan (scanA "*/9 * * * *"))
         ∧ stored ScanCronType c' "b" = Some (OfScan (scanB "*/3 * * * *"))
         ∧ (persist ScanCronType c' (storage c)).1
           = Some "PutObject failed"
         ∧ r = Some (External "PutObject failed")
         ∧ cron c' = cron c).
Proof.
  intros c e entries overwriteSettings.
  destruct (persistence_failure_keeps_mutation ScanCronType c
              (or_introl eq_refl)) as [Hsave Hbulk].
  assert (parses e) as He by compute_done.
  assert (hasType ScanCronType e) as Hte by compute_done.
  assert (length entries ≤ length overwriteSettings)%nat as Hlen
    by (simpl; lia).
  assert (Forall parses entries) as Hparse by compute_done.
  assert (Forall (hasType ScanCronType) entries) as Hty by compute_done.
  assert (wellKeyed c) as Hwk by compute_done.
  split.
  - destruct (Hsave e He Hte) as (r & c' & Heq & Hst & Hfail).
    assert ((persist ScanCronType c' (storage c)).1
            = Some "PutObject failed") as Hmsg.
    { vm_compute in Heq. injection Heq as _ <-. vm_compute. reflexivity. }
    destruct (Hfail _ Hmsg) as [Hr Hcron].
    split; [done|]. split; [done|]. by exists r, c'.
  - destruct (Hbulk entries overwriteSettings Hlen Hparse Hty Hwk)
      as (r & c' & Heq & Hst & Hfail).
    assert ((persist ScanCronType c' (storage c)).1
            = Some "PutObject failed") as Hmsg.
    { vm_compute in Heq. injection Heq as _ <-. vm_compute. reflexivity. }
    destruct (Hfail _ Hmsg) as [Hr Hcron].
    do 4 (split; [done|]). exists r, c'.
    split; [done|].
    split; [rewrite Hst; vm_compute; reflexivity|].
    split; [rewrite Hst; vm_compute; reflexivity|].
    by do 2 (split; [done|]).
Defined.

Lemma invalid_type_rejected_witness :
  let c := running noWhitelist emptyStore in
  let typ : CronType := 7 in
  let e := OfScan (scanB "* * * * *") in
  typ ≠ ScanCronType
  ∧ typ ≠ ReportCronType
  ∧ parses e
  ∧ GetEntries typ c = (inl ErrInvalidCronType, c)
  ∧ GetEntryByID typ "a" c = (inl ErrInvalidCronType, c)
  ∧ RemoveEntry typ "a" c = (Some ErrInvalidCronType, c)
  ∧ SaveEntry typ e c = (Some ErrInvalidCronType, c)
  ∧ BulkCreate typ [e] [true] c = Some (Some ErrInvalidCronType, c).
Proof.
  intros c typ e.
  assert (typ ≠ ScanCronType) as Hs by done.
  assert (typ ≠ ReportCronType) as Hr by done.
  assert (parses e) as He by compute_done.
  destruct (invalid_type_rejected typ c Hs Hr)
    as (Hall & Hget & Hremove & Hsave & _ & Hbulk & _).
  do 4 (split; [done|]).
  split; [apply Hget|]. split; [apply Hremove|]. split; [by apply Hsave|].
  apply Hbulk; [done|]. by constructor.
Defined.


Lemma RemoveEntry_absent_witness :
  let c := running noWhitelist emptyStore in
  stored ScanCronType c "missing" = None
  ∧ ∃ c',
      RemoveEntry ScanCronType "missing" c = (Some ErrScheduleNotFound, c')
      ∧ scanEntries c' = scanEntries c
      ∧ reportEntries c' = reportEntries c
      ∧ storage c' = storage c
      ∧ cron c' = cron c.
Proof.
  intros c.
  assert (stored ScanCronType c "missing" = None) as Habsent
    by (vm_compute; reflexivity).
  split; [done|].
  apply (RemoveEntry_absent ScanCronType "missing" c); [by left|done].
Defined.

Lemma variant_mismatch_rejected_witness :
  let c := running noWhitelist emptyStore in
  let wrong := OfReport (reportT "t3" "* * * * *") in
  let entries := [OfScan (scanB "*/3 * * * *"); wrong] in
  let overwriteSettings := [true; true] in
  (parses wrong ∧ ¬ hasType ScanCronType wrong
   ∧ SaveEntry ScanCronType wrong c = (Some ErrMalformedEntry, c))
  ∧ ((length entries ≤ length overwriteSettings)%nat
     ∧ Forall parses entries
     ∧ entries !! 1%nat = Some wrong
     ∧ (∀ j e', (1 < j)%nat → entries !! j = Some e' →
                GetID e' ≠ GetID wrong)
     ∧ ∃ c',
         BulkCreate ScanCronType entries overwriteSettings c
         = Some (Some ErrMalformedEntry, c')
         ∧ scanEntries c' = scanEntries c
         ∧ reportEntries c' = reportEntries c
         ∧ storage c' = storage c
         ∧ cron c' = cron c).
Proof.
  intros c wrong entries overwriteSettings.
  destruct (variant_mismatch_rejected ScanCronType c (or_introl eq_refl))
    as [Hsave Hbulk].
  assert (parses wrong) as Hp by compute_done.
  assert (¬ hasType ScanCronType wrong) as Hty by compute_done.
  assert (length entries ≤ length overwriteSettings)%nat as Hlen
    by (simpl; lia).
  assert (Forall parses entries) as Hparse by compute_done.
  assert (∀ j e', (1 < j)%nat → entries !! j = Some e' →
                  GetID e' ≠ GetID wrong) as Hlast.
  { intros [|[|j]] e' Hj; [lia|lia|]. by intros [=]. }
  split.
  - do 2 (split; [done|]). by apply Hsave.
  - do 2 (split; [done|]). split; [reflexivity|]. split; [done|].
    by apply (Hbulk entries overwriteSettings 1%nat wrong).
Defined.

Lemma BulkCreate_last_occurrence_wins_witness :
  let c := running noWhitelist emptyStore in
  let entries :=
    [OfScan (scanB "*/3 * * * *"); OfScan (scanA "*/9 * * * *");
     OfScan (scanB "*/7 * * * *")] in
  let overwriteSettings := [true; true; false] in
  let entries2 :=
    [OfScan (scanA "*/9 * * * *"); OfScan (scanB "*/7 * * * *")] in
  let overwriteSettings2 := [true; false] in
  (length entries ≤ length overwriteSettings)%nat
  ∧ Forall parses entries
  ∧ Forall (hasType ScanCronType) entries
  ∧ wellKeyed c
  ∧ parseEntries entries overwriteSettings 0 ∅
    = parseEntries entries2 overwriteSettings2 0 ∅
  ∧ ∃ r c' new,
      BulkCreate ScanCronType entries overwriteSettings c = Some (r, c')
      ∧ stored ScanCronType c' "b" = Some (OfScan (scanB "*/7 * * * *"))
      ∧ cron c' = match r with
                  | Some _ => cron c
                  | None => scheduleAll new (cron c)
                  end
      ∧ NoDup (js_id <$> new).
Proof.
  intros c entries overwriteSettings entries2 overwriteSettings2.
  assert (length entries ≤ length overwriteSettings)%nat as Hlen
    by (simpl; lia).
  assert (Forall parses entries) as Hparse by compute_done.
  assert (Forall (hasType ScanCronType) entries) as Hty by compute_done.
  assert (wellKeyed c) as Hwk by compute_done.
  destruct (BulkCreate_last_occurrence_wins ScanCronType entries
              overwriteSettings c Hlen Hparse) as (_ & Hsame & Hone).
  do 4 (split; [done|]). split.
  - apply Hsame; [simpl; lia|compute_done|].
    intros id. simpl. repeat case_decide; congruence.
  - destruct (Hone (or_introl eq_refl) Hty Hwk)
      as (r & c' & new & Heq & Hst & Hcron & Hnd).
    exists r, c', new. split; [done|].
    split; [rewrite Hst; vm_compute; reflexivity|]. by split.
Defined.

(** ** Inputs on which the claims as they are worded fail *)


(** C6, as worded, on SaveEntry and BulkCreate with the unknown tag 7
    and a cron spec that does not parse: the error is the
    malformed-schedule error, not the invalid-type error. *)
Lemma invalid_type_counterexample :
  let c := running noWhitelist emptyStore in
  let typ : CronType := 7 in
  let e := OfScan (scanB "every minute") in
  typ ≠ ScanCronType
  ∧ typ ≠ ReportCronType
  ∧ SaveEntry typ e c = (Some ErrMalformedSchedule, c)
  ∧ BulkCreate typ [e] [false] c = Some (Some ErrMalformedSchedule, c)
  ∧ ErrMalformedSchedule ≠ ErrInvalidCronType.
Proof. intros c typ e. by repeat split. Qed.

(** C9, as worded.  A report entry saved with the Scan tag and a cron
    spec that does not parse: the error is the malformed-schedule
    error, not the malformed-entry error.  A batch with the Scan tag
    whose report entry "a" is followed by a scan entry "a": the report
    entry is dropped by the keyed batch, the call succeeds, writes the
    table and the store and registers a job.  An entry saved with the
    unknown tag 7, which is the tag of no variant: the error is the
    invalid-type error. *)
Lemma variant_mismatch_counterexample :
  let c := running noWhitelist emptyStore in
  let wrong := OfReport (reportT "a" "every minute") in
  let dropped := OfReport (reportT "a" "* * * * *") in
  let a5 := OfScan (scanA "*/5 * * * *") in
  (¬ hasType ScanCronType wrong
   ∧ fst (SaveEntry ScanCronType wrong c) = Some ErrMalformedSchedule
   ∧ fst <$> BulkCreate ScanCronType [wrong] [true] c
     = Some (Some ErrMalformedSchedule))
  ∧ (¬ hasType ScanCronType dropped
     ∧ ∃ c',
         BulkCreate ScanCronType [dropped; a5] [true; true] c
         = Some (None, c')
         ∧ stored ScanCronType c' "a" = Some a5
         ∧ savedScans (storage c') !! "a" = Some (scanA "*/5 * * * *")
         ∧ cron c'
           = (cron c
              ++ [cron_Schedule "*/5 * * * *" (scanJob "a" "t1") "a"])%list)
  ∧ (¬ hasType 7 a5
     ∧ fst (SaveEntry 7 a5 c) = Some ErrInvalidCronType).
Proof.
  intros c wrong dropped a5. split; [|split].
  - split; [compute_done|]. split; vm_compute; reflexivity.
  - split; [compute_done|]. eexists.
    split; [vm_compute; reflexivity|].
    repeat split; vm_compute; reflexivity.
  - split; [compute_done|]. vm_compute. reflexivity.
Qed.

(** ** The scenarios of the specification *)

Example scenario_save_scan_whitelist_disabled :
  let c := running noWhitelist emptyStore in
  let p1 := {| ProgramID := "p1"; TeamID := "t1";
               CronSpec := "* * * * *" |} in
  ∃ c',
    SaveEntry ScanCronType (OfScan p1) c = (None, c')
    ∧ (GetEntryByID ScanCronType "p1" c').1 = inr (OfScan p1)
    ∧ cron c'
      = (cron c
         ++ [cron_Schedule "* * * * *" (scanJob "p1" "t1") "p1"])%list.
Proof.
  intros c p1. eexists. split; [vm_compute; reflexivity|].
  split; vm_compute; reflexivity.
Qed.

Example scenario_save_report_not_whitelisted :
  let c := running onlyT1 emptyStore in
  let t2 := reportT "t2" "* * * * *" in
  ∃ c',
    SaveEntry ReportCronType (OfReport t2) c = (None, c')
    ∧ (GetEntryByID ReportCronType "t2" c').1 = inr (OfReport t2)
    ∧ cron c' = cron c.
Proof.
  intros c t2. eexists. split; [vm_compute; reflexivity|].
  split; vm_compute; reflexivity.
Qed.

Example scenario_bulk_no_overwrite :
  let c := running noWhitelist emptyStore in
  ∃ c',
    BulkCreate ScanCronType [OfScan (scanA "*/9 * * * *")] [false] c
    = Some (None, c')
    ∧ scanEntries c' !! "a" = Some (scanA "*/2 * * * *").
Proof.
  intros c. eexists. split; vm_compute; reflexivity.
Qed.

Example scenario_get_missing :
  (GetEntryByID ScanCronType "missing" (running noWhitelist emptyStore)).1
  = inl ErrScheduleNotFound.
Proof. vm_compute. reflexivity. Qed.

End Examples.

(** * Further properties of the orchestrator *)

Section MoreProperties.
Context `{P : CronParser, S : CronStore, R : MapRange}.

Implicit Types (c : Crontinuous) (typ : CronType) (e : CronEntry).

(** ** The whitelist policy *)

(** X1. With the whitelist of a type disabled every team is allowed; with
    it enabled a team is allowed exactly when it is in the configured
    list; for a tag that is neither Scan nor Report every team is
    allowed. *)
Theorem isTeamWhitelisted_spec (cfg : Config) (teamID : string) :
  (isTeamWhitelisted cfg ScanCronType teamID = true
   ↔ EnableTeamsWhitelistScan cfg = false
     ∨ teamID ∈ TeamsWhitelistScan cfg)
  ∧ (isTeamWhitelisted cfg ReportCronType teamID = true
     ↔ EnableTeamsWhitelistReport cfg = false
       ∨ teamID ∈ TeamsWhitelistReport cfg)
  ∧ (∀ typ, typ ≠ ScanCronType → typ ≠ ReportCronType →
       isTeamWhitelisted cfg typ teamID = true).
Proof.
  assert (Hmem : ∀ l : list string,
            existsb (λ t, bool_decide (t = teamID)) l = true ↔ teamID ∈ l).
  { intros l. rewrite existsb_exists. split.
    - intros (t & Hin & Ht%bool_decide_eq_true). subst t.
      by apply list_elem_of_In.
    - intros Hin. exists teamID. split; [by apply list_elem_of_In|].
      by apply bool_decide_eq_true. }
  unfold isTeamWhitelisted. split; [|split].
  - simpl. destruct (EnableTeamsWhitelistScan cfg); simpl.
    + rewrite Hmem. split; [by right|by intros [?|?]].
    + split; [by left|done].
  - simpl. destruct (EnableTeamsWhitelistReport cfg); simpl.
    + rewrite Hmem. split; [by right|by intros [?|?]].
    + split; [by left|done].
  - intros typ Hs Hr. by rewrite !decide_False.
Qed.

(** ** What the write operations leave alone *)

Lemma SaveEntry_other_table typ e c :
  (typ ≠ ScanCronType →
   scanEntries (SaveEntry typ e c).2 = scanEntries c)
  ∧ (typ ≠ ReportCronType →
     reportEntries (SaveEntry typ e c).2 = reportEntries c).
Proof.
  unfold SaveEntry, saveScanEntry, saveReportEntry.
  destruct (ParseStandard (GetCronSpec e)) as [msg|s]; [done|].
  split; intros Hne; repeat case_decide; try done; destruct e as [se|re];
    simpl; try done.
  - destruct (SaveReportEntries _ _) as [[msg|] st]; simpl; [done|].
    by destruct (negb _).
  - destruct (SaveScanEntries _ _) as [[msg|] st]; simpl; [done|].
    by destruct (negb _).
Qed.

Lemma SaveEntry_other_id typ e c id :
  id ≠ GetID e →
  scanEntries (SaveEntry typ e c).2 !! id = scanEntries c !! id
  ∧ reportEntries (SaveEntry typ e c).2 !! id = reportEntries c !! id.
Proof.
  intros Hne. unfold SaveEntry, saveScanEntry, saveReportEntry.
  destruct (ParseStandard (GetCronSpec e)) as [msg|s]; [done|].
  repeat case_decide; try done; destruct e as [se|re]; simpl in *; try done.
  - destruct (SaveScanEntries _ _) as [[msg|] st]; simpl;
      [|destruct (negb _)]; simpl; by rewrite lookup_insert_ne.
  - destruct (SaveReportEntries _ _) as [[msg|] st]; simpl;
      [|destruct (negb _)]; simpl; by rewrite lookup_insert_ne.
Qed.

Lemma RemoveEntry_other_table typ ID c :
  (typ ≠ ScanCronType →
   scanEntries (RemoveEntry typ ID c).2 = scanEntries c)
  ∧ (typ ≠ ReportCronType →
     reportEntries (RemoveEntry typ ID c).2 = reportEntries c).
Proof.
  unfold RemoveEntry, removeScanEntry, removeReportEntry.
  split; intros Hne; repeat case_decide; try done; simpl.
  - destruct (reportEntries c !! ID); simpl; [|done].
    by destruct (SaveReportEntries _ _) as [[msg|] st].
  - destruct (scanEntries c !! ID); simpl; [|done].
    by destruct (SaveScanEntries _ _) as [[msg|] st].
Qed.

Lemma RemoveEntry_other_id typ ID c id :
  id ≠ ID →
  scanEntries (RemoveEntry typ ID c).2 !! id = scanEntries c !! id
  ∧ reportEntries (RemoveEntry typ ID c).2 !! id = reportEntries c !! id.
Proof.
  intros Hne. unfold RemoveEntry, removeScanEntry, removeReportEntry.
  repeat case_decide; try done; simpl.
  - destruct (scanEntries c !! ID); simpl; [|done].
    destruct (SaveScanEntries _ _) as [[msg|] st]; simpl;
      by rewrite lookup_delete_ne.
  - destruct (reportEntries c !! ID); simpl; [|done].
    destruct (SaveReportEntries _ _) as [[msg|] st]; simpl;
      by rewrite lookup_delete_ne.
Qed.

Lemma scanBulkCreate_reportEntries parsed c :
  reportEntries (scanBulkCreate parsed c).2 = reportEntries c.
Proof.
  unfold scanBulkCreate.
  destruct (scanBulkLoop _ _ _ _) as [err|[current jobs]]; simpl; [done|].
  by destruct (SaveScanEntries _ _).
Qed.

Lemma reportBulkCreate_scanEntries parsed c :
  scanEntries (reportBulkCreate parsed c).2 = scanEntries c.
Proof.
  unfold reportBulkCreate.
  destruct (reportBulkLoop _ _ _ _) as [err|[current jobs]]; simpl; [done|].
  by destruct (SaveReportEntries _ _).
Qed.

Lemma bulkDispatch_other_table typ parsed c :
  (typ ≠ ScanCronType →
   scanEntries (bulkDispatch typ parsed c).2 = scanEntries c)
  ∧ (typ ≠ ReportCronType →
     reportEntries (bulkDispatch typ parsed c).2 = reportEntries c).
Proof.
  unfold bulkDispatch. split; intros Hne; repeat case_decide; try done.
  - pose proof (reportBulkCreate_scanEntries parsed c) as Hsame.
    destruct (reportBulkCreate parsed c) as [[jobs [err|]] c']; done.
  - pose proof (scanBulkCreate_reportEntries parsed c) as Hsame.
    destruct (scanBulkCreate parsed c) as [[jobs [err|]] c']; done.
Qed.

Lemma stored_other_type typ typ' c c' :
  typ' ≠ typ →
  (typ ≠ ScanCronType → scanEntries c' = scanEntries c) →
  (typ ≠ ReportCronType → reportEntries c' = reportEntries c) →
  ∀ id, stored typ' c' id = stored typ' c id.
Proof.
  intros Hne Hscan Hreport id. unfold stored.
  repeat case_decide; subst; try done.
  - by rewrite Hscan.
  - by rewrite Hreport.
Qed.

(** X2. SaveEntry, RemoveEntry and BulkCreate called with one type never
    change the table of the other type, whatever their input and their
    outcome; SaveEntry and RemoveEntry change no entry other than the one
    under the id they are given. *)
Theorem writes_leave_other_entries typ c :
  (∀ typ' e id,
     typ' ≠ typ ∨ id ≠ GetID e →
     stored typ' (SaveEntry typ e c).2 id = stored typ' c id)
  ∧ (∀ typ' ID id,
       typ' ≠ typ ∨ id ≠ ID →
       stored typ' (RemoveEntry typ ID c).2 id = stored typ' c id)
  ∧ (∀ typ' entries overwriteSettings r c' id,
       typ' ≠ typ →
       BulkCreate typ entries overwriteSettings c = Some (r, c') →
       stored typ' c' id = stored typ' c id).
Proof.
  split; [|split].
  - intros typ' e id [Hne|Hne].
    + destruct (SaveEntry_other_table typ e c).
      by apply (stored_other_type typ).
    + destruct (SaveEntry_other_id typ e c id Hne) as [Hs Hr].
      unfold stored. by rewrite Hs, Hr.
  - intros typ' ID id [Hne|Hne].
    + destruct (RemoveEntry_other_table typ ID c).
      by apply (stored_other_type typ).
    + destruct (RemoveEntry_other_id typ ID c id Hne) as [Hs Hr].
      unfold stored. by rewrite Hs, Hr.
  - intros typ' entries flags r c' id Hne. unfold BulkCreate.
    destruct (parseEntries _ _ _ _) as [[err|parsed]|]; [| |done].
    + by intros [= <- <-].
    + intros [= Hd]. destruct (bulkDispatch_other_table typ parsed c).
      rewrite Hd in *. by apply (stored_other_type typ).
Qed.

(** ** RemoveEntry on an id of the table *)

(** X3. For a cron type Scan or Report and an id that is in the table of
    the type, RemoveEntry deletes the entry from the table, whatever the
    store answers, and hands the table to the store.  When the store
    accepts the write it then asks the scheduler to remove the job of the
    id and returns success; when the store fails it returns the store's
    error and makes no call to the scheduler, so the job stays.  In both
    cases GetEntryByID on the id then fails with ScheduleNotFound. *)
Theorem RemoveEntry_present typ ID c e :
  typ = ScanCronType ∨ typ = ReportCronType →
  stored typ c ID = Some e →
  ∃ r c',
    RemoveEntry typ ID c = (r, c')
    ∧ stored typ c' ID = None
    ∧ r = External <$> (persist typ c' (storage c)).1
    ∧ storage c' = (persist typ c' (storage c)).2
    ∧ cron c' = match r with
                | Some _ => cron c
                | None => cron c ++ [cron_RemoveJob ID]
                end
    ∧ (GetEntryByID typ ID c').1 = inl ErrScheduleNotFound.
Proof.
  unfold RemoveEntry, removeScanEntry, removeReportEntry, persist,
    GetEntryByID, getScanEntryByID, getReportEntryByID.
  intros [-> | ->]; [rewrite stored_scan|rewrite stored_report];
    intros (x & Hx & _)%fmap_Some; simpl; rewrite Hx; simpl.
  - destruct (SaveScanEntries _ (storage c)) as [[msg|] st] eqn:Hsave; simpl;
      eexists _, _; (split; [reflexivity|]); rewrite stored_scan; simpl;
      rewrite Hsave, lookup_delete_eq; by repeat split.
  - destruct (SaveReportEntries _ (storage c)) as [[msg|] st] eqn:Hsave;
      simpl; eexists _, _; (split; [reflexivity|]); rewrite stored_report;
      simpl; rewrite Hsave, lookup_delete_eq; by repeat split.
Qed.

(** ** The tables stay keyed by the ids of their entries *)

Lemma rekey_wellKeyed {A} (key : A → string) (l : list (string * A))
    (acc : gmap string A) :
  map_Forall (λ k a, key a = k) acc →
  map_Forall (λ k a, key a = k)
    (foldl (λ current kv, <[key kv.2 := kv.2]> current) acc l).
Proof.
  revert acc. induction l as [|[k a] l IH]; intros acc Hacc; simpl; [done|].
  apply IH. by apply map_Forall_insert_2.
Qed.

Lemma scanBulkLoop_wellKeyed cfg items current scheduledJobs current' jobs' :
  map_Forall (λ k se, ProgramID se = k) current →
  scanBulkLoop cfg items current scheduledJobs = inr (current', jobs') →
  map_Forall (λ k se, ProgramID se = k) current'.
Proof.
  revert current scheduledJobs.
  induction items as [|[k item] items IH]; intros current jobs Hwk; simpl.
  - by intros [= <- _].
  - destruct (entry item) as [se|re]; [|done].
    assert (map_Forall (λ k se, ProgramID se = k)
              (<[ProgramID se := se]> current))
      by by apply map_Forall_insert_2.
    repeat case_match; by apply IH.
Qed.

Lemma reportBulkLoop_wellKeyed cfg items current scheduledJobs
    current' jobs' :
  map_Forall (λ k re, ReportTeamID re = k) current →
  reportBulkLoop cfg items current scheduledJobs = inr (current', jobs') →
  map_Forall (λ k re, ReportTeamID re = k) current'.
Proof.
  revert current scheduledJobs.
  induction items as [|[k item] items IH]; intros current jobs Hwk; simpl.
  - by intros [= <- _].
  - destruct (entry item) as [se|re]; [done|].
    assert (map_Forall (λ k re, ReportTeamID re = k)
              (<[ReportTeamID re := re]> current))
      by by apply map_Forall_insert_2.
    repeat case_match; by apply IH.
Qed.

Lemma scanBulkCreate_wellKeyed parsed c :
  wellKeyed c → wellKeyed (scanBulkCreate parsed c).2.
Proof.
  intros [Hs Hr]. unfold scanBulkCreate.
  destruct (scanBulkLoop _ _ _ _) as [err|[current jobs]] eqn:Hloop; simpl;
    [done|].
  apply scanBulkLoop_wellKeyed in Hloop;
    [|apply (rekey_wellKeyed ProgramID), map_Forall_empty].
  by destruct (SaveScanEntries _ _).
Qed.

Lemma reportBulkCreate_wellKeyed parsed c :
  wellKeyed c → wellKeyed (reportBulkCreate parsed c).2.
Proof.
  intros [Hs Hr]. unfold reportBulkCreate.
  destruct (reportBulkLoop _ _ _ _) as [err|[current jobs]] eqn:Hloop; simpl;
    [done|].
  apply reportBulkLoop_wellKeyed in Hloop;
    [|apply (rekey_wellKeyed ReportTeamID), map_Forall_empty].
  by destruct (SaveReportEntries _ _).
Qed.

(** X4. The tables of a new orchestrator are keyed by the ids of their
    entries, and SaveEntry, RemoveEntry and BulkCreate keep them so,
    whatever their input and their outcome. *)
Theorem writes_keep_tables_keyed c :
  wellKeyed c →
  (∀ typ e, wellKeyed (SaveEntry typ e c).2)
  ∧ (∀ typ ID, wellKeyed (RemoveEntry typ ID c).2)
  ∧ (∀ typ entries overwriteSettings r c',
       BulkCreate typ entries overwriteSettings c = Some (r, c') →
       wellKeyed c')
  ∧ (∀ cfg st, wellKeyed (NewCrontinuous cfg st)).
Proof.
  intros [Hs Hr]. split; [|split; [|split]].
  - intros typ e. unfold SaveEntry, saveScanEntry, saveReportEntry.
    destruct (ParseStandard (GetCronSpec e)) as [msg|s]; [done|].
    repeat case_decide; try done; destruct e as [se|re]; simpl; try done.
    + assert (wellKeyed (set_scanEntries
                (<[ProgramID se := se]> (scanEntries c))
                (lock_scanMux Lock c)))
        by (split; [by apply map_Forall_insert_2|done]).
      destruct (SaveScanEntries _ _) as [[msg|] st]; simpl;
        [|destruct (negb _)]; done.
    + assert (wellKeyed (set_reportEntries
                (<[ReportTeamID re := re]> (reportEntries c))
                (lock_reportMux Lock c)))
        by (split; [done|by apply map_Forall_insert_2]).
      destruct (SaveReportEntries _ _) as [[msg|] st]; simpl;
        [|destruct (negb _)]; done.
  - intros typ ID. unfold RemoveEntry, removeScanEntry, removeReportEntry.
    repeat case_decide; try done; simpl.
    + destruct (scanEntries c !! ID); simpl; [|done].
      assert (wellKeyed (set_scanEntries (delete ID (scanEntries c))
                           (lock_scanMux Lock c)))
        by (split; [by apply map_Forall_delete|done]).
      by destruct (SaveScanEntries _ _) as [[msg|] st].
    + destruct (reportEntries c !! ID); simpl; [|done].
      assert (wellKeyed (set_reportEntries (delete ID (reportEntries c))
                           (lock_reportMux Lock c)))
        by (split; [done|by apply map_Forall_delete]).
      by destruct (SaveReportEntries _ _) as [[msg|] st].
  - intros typ entries flags r c'. unfold BulkCreate.
    destruct (parseEntries _ _ _ _) as [[err|parsed]|]; [| |done].
    + by intros [= <- <-].
    + intros [= Hd]. unfold bulkDispatch in Hd. repeat case_decide.
      * pose proof (scanBulkCreate_wellKeyed parsed c (conj Hs Hr)) as Hwk.
        destruct (scanBulkCreate parsed c) as [[jobs [err|]] c1];
          by injection Hd as <- <-.
      * pose proof (reportBulkCreate_wellKeyed parsed c (conj Hs Hr)) as Hwk.
        destruct (reportBulkCreate parsed c) as [[jobs [err|]] c1];
          by injection Hd as <- <-.
      * by injection Hd as <- <-.
  - intros cfg st. split; apply map_Forall_empty.
Qed.

(** ** The errors of the public operations *)

Lemma parseEntries_inl entries overwriteSettings i parsedEntries err :
  parseEntries entries overwriteSettings i parsedEntries = Some (inl err) →
  err = ErrMalformedSchedule.
Proof.
  revert i parsedEntries.
  induction entries as [|e rest IH]; intros i acc; simpl; [done|].
  destruct (ParseStandard (GetCronSpec e)) as [msg|s]; [by intros [= <-]|].
  destruct (overwriteSettings !! i); [apply IH|done].
Qed.

Lemma scanBulkLoop_inl cfg items current scheduledJobs err :
  scanBulkLoop cfg items current scheduledJobs = inl err →
  err = ErrMalformedEntry.
Proof.
  revert current scheduledJobs.
  induction items as [|[k item] items IH]; intros current jobs; simpl;
    [done|].
  destruct (entry item); [|by intros [= <-]]. repeat case_match; apply IH.
Qed.

Lemma reportBulkLoop_inl cfg items current scheduledJobs err :
  reportBulkLoop cfg items current scheduledJobs = inl err →
  err = ErrMalformedEntry.
Proof.
  revert current scheduledJobs.
  induction items as [|[k item] items IH]; intros current jobs; simpl;
    [done|].
  destruct (entry item); [by intros [= <-]|]. repeat case_match; apply IH.
Qed.

(** X5. The errors that the public operations return.  SaveEntry and
    BulkCreate return only the malformed-schedule, invalid-type and
    malformed-entry errors and the errors of the store; RemoveEntry only
    the invalid-type and not-found errors and the errors of the store;
    GetEntryByID only the invalid-type and not-found errors; GetEntries
    only the invalid-type error.  In particular the internal
    team-not-whitelisted error never leaves SaveEntry. *)
Theorem errors_of_operations typ c err :
  (∀ e, (SaveEntry typ e c).1 = Some err →
     err = ErrMalformedSchedule ∨ err = ErrInvalidCronType
     ∨ err = ErrMalformedEntry ∨ ∃ msg, err = External msg)
  ∧ (∀ entries overwriteSettings c',
       BulkCreate typ entries overwriteSettings c = Some (Some err, c') →
       err = ErrMalformedSchedule ∨ err = ErrInvalidCronType
       ∨ err = ErrMalformedEntry ∨ ∃ msg, err = External msg)
  ∧ (∀ ID, (RemoveEntry typ ID c).1 = Some err →
       err = ErrInvalidCronType ∨ err = ErrScheduleNotFound
       ∨ ∃ msg, err = External msg)
  ∧ (∀ ID, (GetEntryByID typ ID c).1 = inl err →
       err = ErrInvalidCronType ∨ err = ErrScheduleNotFound)
  ∧ ((GetEntries typ c).1 = inl err → err = ErrInvalidCronType).
Proof.
  split; [|split; [|split; [|split]]].
  - intros e. unfold SaveEntry, saveScanEntry, saveReportEntry.
    destruct (ParseStandard (GetCronSpec e)) as [msg|s];
      [intros [= <-]; by left|].
    repeat case_decide; destruct e as [se|re]; simpl;
      try (intros [= <-]; by eauto 6);
      [destruct (SaveScanEntries _ _) as [[msg|] st]
      |destruct (SaveReportEntries _ _) as [[msg|] st]]; simpl;
      try (intros [= <-]; by eauto 6); by destruct (negb _).
  - intros entries flags c'. unfold BulkCreate.
    destruct (parseEntries _ _ _ _) as [[err'|parsed]|] eqn:Hparse;
      [| |done].
    + intros [= -> _]. left. by eapply parseEntries_inl.
    + intros [= Hd]. unfold bulkDispatch, scanBulkCreate, reportBulkCreate
        in Hd. repeat case_decide.
      * destruct (scanBulkLoop _ _ _ _) as [err'|[current jobs]] eqn:Hloop;
          simpl in Hd.
        { injection Hd as -> _. right; right; left.
          by eapply scanBulkLoop_inl. }
        destruct (SaveScanEntries _ _) as [[msg|] st]; simpl in Hd;
          [|done]. injection Hd as <- _. by eauto 6.
      * destruct (reportBulkLoop _ _ _ _) as [err'|[current jobs]]
          eqn:Hloop; simpl in Hd.
        { injection Hd as -> _. right; right; left.
          by eapply reportBulkLoop_inl. }
        destruct (SaveReportEntries _ _) as [[msg|] st]; simpl in Hd;
          [|done]. injection Hd as <- _. by eauto 6.
      * injection Hd as <- _. by eauto.
  - intros ID. unfold RemoveEntry, removeScanEntry, removeReportEntry.
    repeat case_decide; simpl; try (intros [= <-]; by eauto).
    + destruct (scanEntries c !! ID); simpl; [|intros [= <-]; by eauto].
      destruct (SaveScanEntries _ _) as [[msg|] st]; simpl; [|done].
      intros [= <-]. by eauto.
    + destruct (reportEntries c !! ID); simpl; [|intros [= <-]; by eauto].
      destruct (SaveReportEntries _ _) as [[msg|] st]; simpl; [|done].
      intros [= <-]. by eauto.
  - intros ID. unfold GetEntryByID, getScanEntryByID, getReportEntryByID.
    repeat case_decide; simpl; try (intros [= <-]; by eauto).
    + destruct (scanEntries c !! ID); simpl; [done|].
      intros [= <-]. by eauto.
    + destruct (reportEntries c !! ID); simpl; [done|].
      intros [= <-]. by eauto.
  - unfold GetEntries. repeat case_decide; simpl; try done.
    by intros [= <-].
Qed.

(** ** The outcome of SaveEntry *)



(** ** SaveEntry and then RemoveEntry *)

Lemma SaveEntry_success_inv typ e c c1 :
  SaveEntry typ e c = (None, c1) →
  (typ = ScanCronType
   ∧ ∃ se, e = OfScan se
           ∧ scanEntries c1 = <[ProgramID se := se]> (scanEntries c)
           ∧ reportEntries c1 = reportEntries c)
  ∨ (typ = ReportCronType
     ∧ ∃ re, e = OfReport re
             ∧ scanEntries c1 = scanEntries c
             ∧ reportEntries c1
               = <[ReportTeamID re := re]> (reportEntries c)).
Proof.
  unfold SaveEntry, saveScanEntry, saveReportEntry.
  destruct (ParseStandard (GetCronSpec e)) as [msg|s]; [done|].
  repeat case_decide; subst; try done; destruct e as [se|re]; simpl;
    try done.
  - destruct (SaveScanEntries _ _) as [[msg|] st]; simpl; [done|].
    destruct (negb _); intros [= <-]; left; split; [done| |done|];
      by exists se.
  - destruct (SaveReportEntries _ _) as [[msg|] st]; simpl; [done|].
    destruct (negb _); intros [= <-]; right; split; [done| |done|];
      by exists re.
Qed.

Lemma RemoveEntry_tables typ ID c :
  typ = ScanCronType ∨ typ = ReportCronType →
  is_Some (stored typ c ID) →
  ∃ r c',
    RemoveEntry typ ID c = (r, c')
    ∧ r ≠ Some ErrScheduleNotFound
    ∧ scanEntries c'
      = (if decide (typ = ScanCronType) then delete ID (scanEntries c)
         else scanEntries c)
    ∧ reportEntries c'
      = (if decide (typ = ScanCronType) then reportEntries c
         else delete ID (reportEntries c)).
Proof.
  unfold RemoveEntry, removeScanEntry, removeReportEntry.
  intros [-> | ->]; [rewrite stored_scan|rewrite stored_report];
    intros [x Hx]%fmap_is_Some; simpl; rewrite Hx; simpl.
  - destruct (SaveScanEntries _ _) as [[msg|] st]; by eexists _, _.
  - destruct (SaveReportEntries _ _) as [[msg|] st]; by eexists _, _.
Qed.

(** X8. Removing an entry right after a successful SaveEntry of it finds
    the entry, whatever the store answers to the second write; when the
    id was not in the table before the save, both tables are then what
    they were before the save. *)
Theorem SaveEntry_then_RemoveEntry typ e c c1 :
  SaveEntry typ e c = (None, c1) →
  ∃ r c2,
    RemoveEntry typ (GetID e) c1 = (r, c2)
    ∧ r ≠ Some ErrScheduleNotFound
    ∧ stored typ c2 (GetID e) = None
    ∧ (stored typ c (GetID e) = None →
       scanEntries c2 = scanEntries c ∧ reportEntries c2 = reportEntries c).
Proof.
  intros [[-> (se & -> & Hs & Hr)]|[-> (re & -> & Hs & Hr)]]%SaveEntry_success_inv;
    simpl.
  - destruct (RemoveEntry_tables ScanCronType (ProgramID se) c1)
      as (r & c2 & Hrem & Hnf & Hs2 & Hr2); [by left| |].
    { rewrite stored_scan, Hs, lookup_insert_eq. by eexists. }
    exists r, c2. rewrite decide_True in Hs2 by done.
    rewrite decide_True in Hr2 by done.
    split; [done|]. split; [done|]. rewrite !stored_scan, Hs2, Hr2, Hs, Hr.
    split; [by rewrite lookup_delete_eq|].
    intros Hnone%fmap_None. by rewrite delete_insert_id.
  - destruct (RemoveEntry_tables ReportCronType (ReportTeamID re) c1)
      as (r & c2 & Hrem & Hnf & Hs2 & Hr2); [by right| |].
    { rewrite stored_report, Hr, lookup_insert_eq. by eexists. }
    exists r, c2. rewrite decide_False in Hs2 by done.
    rewrite decide_False in Hr2 by done.
    split; [done|]. split; [done|].
    rewrite !stored_report, Hs2, Hr2, Hs, Hr.
    split; [by rewrite lookup_delete_eq|].
    intros Hnone%fmap_None. by rewrite delete_insert_id.
Qed.

(** ** GetEntries *)

Lemma foldl_snoc_fmap {A B} (f : A → B) (l : list A) (acc : list B) :
  foldl (λ acc x, acc ++ [f x]) acc l = acc ++ (f <$> l).
Proof.
  revert acc. induction l as [|x l IH]; intros acc; simpl.
  - by rewrite (right_id_L [] (++)).
  - by rewrite IH, <- (assoc_L (++)).
Qed.

(** X9. GetEntries on the Scan (Report) type returns no error and a list
    that holds each entry of the scan (report) table exactly once, in
    some order; it takes the read lock of the type and changes nothing
    else. *)
Theorem GetEntries_all_entries c :
  (∃ entries,
     GetEntries ScanCronType c = (inr entries, lock_scanMux RLock c)
     ∧ entries ≡ₚ OfScan <$> (map_to_list (scanEntries c)).*2)
  ∧ (∃ entries,
       GetEntries ReportCronType c = (inr entries, lock_reportMux RLock c)
       ∧ entries ≡ₚ OfReport <$> (map_to_list (reportEntries c)).*2).
Proof.
  unfold GetEntries, getScanEntries, getReportEntries. split; simpl.
  - eexists. split; [reflexivity|].
    rewrite (foldl_snoc_fmap (λ kv, OfScan kv.2)). simpl.
    rewrite range_perm. by rewrite <- list_fmap_compose.
  - eexists. split; [reflexivity|].
    rewrite (foldl_snoc_fmap (λ kv, OfReport kv.2)). simpl.
    rewrite range_perm. by rewrite <- list_fmap_compose.
Qed.

(** ** Start on entries that parse *)


Lemma buildScanLoop_inr cfg items scanSchedules :
  (∀ k se, (k, se) ∈ items →
           isTeamWhitelisted cfg ScanCronType (TeamID se) = true →
           parses (OfScan se)) →
  ∃ jobs,
    buildScanLoop cfg items scanSchedules = inr (scanSchedules ++ jobs)
    ∧ ∀ j, j ∈ jobs ↔
        ∃ k se s,
          (k, se) ∈ items
          ∧ isTeamWhitelisted cfg ScanCronType (TeamID se) = true
          ∧ ParseStandard (CronSpec se) = inr s
          ∧ j = {| js_schedule := s;
                   js_job := scanJob (ProgramID se) (TeamID se);
                   js_id := ProgramID se |}.
Proof.
  revert scanSchedules.
  induction items as [|[k se] items IH]; intros acc Hok.
  - exists []. simpl. rewrite (right_id_L [] (++)). split; [done|].
    intros j. split; [by intros ?%elem_of_nil|].
    by intros (? & ? & ? & ?%elem_of_nil & _).
  - simpl.
    assert (Hrest : ∀ k' se', (k', se') ∈ items →
              isTeamWhitelisted cfg ScanCronType (TeamID se') = true →
              parses (OfScan se'))
      by (intros ????; eapply Hok; [by right|done]).
    destruct (isTeamWhitelisted cfg ScanCronType (TeamID se)) eqn:Hw; simpl.
    + destruct (Hok k se) as [s Hs]; [by left|done|]. simpl in Hs.
      rewrite Hs.
      destruct (IH (acc ++ [{| js_schedule := s;
                               js_job := scanJob (ProgramID se) (TeamID se);
                               js_id := ProgramID se |}]) Hrest)
        as (jobs & -> & Hjobs).
      eexists (_ :: jobs). rewrite <- (assoc_L (++)). split; [done|].
      intros j. rewrite elem_of_cons, Hjobs. split.
      * intros [->|(k' & se' & s' & Hin & ?)].
        -- exists k, se, s. split; [by left|done].
        -- exists k', se', s'. split; [by right|done].
      * intros (k' & se' & s' & [[= -> ->]|Hin]%elem_of_cons & Hw' & Hs' & ->).
        -- left. congruence.
        -- right. by exists k', se', s'.
    + destruct (IH acc Hrest) as (jobs & -> & Hjobs).
      exists jobs. split; [done|]. intros j. rewrite Hjobs. split.
      * intros (k' & se' & s' & Hin & ?).
        exists k', se', s'. split; [by right|done].
      * intros (k' & se' & s' & [[= -> ->]|Hin]%elem_of_cons & Hw' & Hs' & ->).
        -- congruence.
        -- by exists k', se', s'.
Qed.



(** X11. When the store fails to return the scan entries, Start returns
    the store's error and leaves both tables as they were.  When the scan
    entries load and pass the parse but the store fails to return the
    report entries, Start returns the store's error with the scan table
    already replaced by the loaded one and the report table as it was.
    In both cases the scheduler that Start created has received no
    call. *)
Theorem Start_store_failure c :
  (∀ msg st1,
     GetScanEntries (storage c) = (inl msg, st1) →
     ∃ c', Start c = (Some (External msg), c')
           ∧ scanEntries c' = scanEntries c
           ∧ reportEntries c' = reportEntries c
           ∧ cron c' = cron_New)
  ∧ (∀ scans st1 msg st2,
       GetScanEntries (storage c) = (inr scans, st1) →
       (∀ k se, scans !! k = Some se →
          isTeamWhitelisted (config c) ScanCronType (TeamID se) = true →
          parses (OfScan se)) →
       GetReportEntries st1 = (inl msg, st2) →
       ∃ c', Start c = (Some (External msg), c')
             ∧ scanEntries c' = scans
             ∧ reportEntries c' = reportEntries c
             ∧ cron c' = cron_New).
Proof.
  split.
  - intros msg st1 Hget. unfold Start, buildScanEntries. simpl.
    rewrite Hget. by eexists.
  - intros scans st1 msg st2 Hscans Hsok Hreports.
    destruct (buildScanLoop_inr (config c) (range scans) [])
      as (sjobs & Hsloop & _).
    { intros k se Hin%elem_of_range. by apply (Hsok k). }
    unfold Start, buildScanEntries, buildReportEntries. simpl.
    rewrite Hscans. simpl. rewrite Hsloop. simpl. rewrite Hreports.
    by eexists.
Qed.

(** ** The jobs that BulkCreate registers *)





(** ** Small batches *)

Lemma range_empty {A} : range (∅ : gmap string A) = [].
Proof.
  apply Permutation_nil_r. rewrite range_perm. by rewrite map_to_list_empty.
Qed.


(** X13. BulkCreate on an empty batch, for a cron type Scan or Report and
    tables keyed by the ids of their entries, still takes the lock of the
    type and writes the table of the type to the store: it returns what
    the store answers, changes neither table and makes no call to the
    scheduler. *)
Theorem BulkCreate_empty_batch typ overwriteSettings c :
  typ = ScanCronType ∨ typ = ReportCronType →
  wellKeyed c →
  ∃ c',
    BulkCreate typ [] overwriteSettings c
    = Some (External <$> (persist typ c (storage c)).1, c')
    ∧ scanEntries c' = scanEntries c
    ∧ reportEntries c' = reportEntries c
    ∧ storage c' = (persist typ c (storage c)).2
    ∧ cron c' = cron c.
Proof.
  intros Htyp [Hscan Hreport]. unfold BulkCreate, bulkDispatch, persist.
  simpl. destruct Htyp as [-> | ->].
  - rewrite !decide_True by done. unfold scanBulkCreate. simpl.
    rewrite range_empty, copyScanEntries_id by done. simpl.
    destruct (SaveScanEntries _ _) as [[msg|] st]; by eexists.
  - rewrite !decide_False, decide_True by done. unfold reportBulkCreate.
    simpl. rewrite range_empty, copyReportEntries_id by done. simpl.
    destruct (SaveReportEntries _ _) as [[msg|] st]; by eexists.
Qed.


(** ** The panic of BulkCreate *)

Lemma parseEntries_None entries overwriteSettings i parsedEntries :
  (i ≤ length overwriteSettings)%nat →
  parseEntries entries overwriteSettings i parsedEntries = None
  ↔ (length overwriteSettings - i < length entries)%nat
    ∧ Forall parses (take (Datatypes.S (length overwriteSettings - i)) entries).
Proof.
  revert i parsedEntries.
  induction entries as [|e rest IH]; intros i acc Hi; simpl.
  - split; [done|]. intros [? _]. lia.
  - destruct (ParseStandard (GetCronSpec e)) as [msg|s] eqn:Hs.
    + split; [done|]. intros [_ Hall].
      apply Forall_cons in Hall as [[s Hs'] _]. congruence.
    + assert (parses e) as Hp by by exists s.
      destruct (overwriteSettings !! i) as [o|] eqn:Ho.
      * apply lookup_lt_Some in Ho.
        rewrite IH by lia.
        replace (length overwriteSettings - i)%nat
          with (Datatypes.S (length overwriteSettings - Datatypes.S i)) by lia.
        rewrite Forall_cons. split.
        -- intros [? ?]. split; [lia|done].
        -- intros [? [_ ?]]. split; [lia|done].
      * apply lookup_ge_None in Ho.
        replace (length overwriteSettings - i)%nat with 0%nat by lia.
        split; [|done]. intros _. split; [lia|].
        rewrite take_0. by apply Forall_singleton.
Qed.

(** X15. BulkCreate panics (index out of range) exactly when the slice of
    overwrite flags is shorter than the batch and the cron spec of every
    entry up to and including the first one without a flag parses.  A
    malformed cron spec at or before that entry turns the panic into the
    malformed-schedule error; the type, the variants of the entries, the
    tables and the store play no part. *)
Theorem BulkCreate_panics typ entries overwriteSettings c :
  BulkCreate typ entries overwriteSettings c = None
  ↔ (length overwriteSettings < length entries)%nat
    ∧ Forall parses
        (take (Datatypes.S (length overwriteSettings)) entries).
Proof.
  pose proof (parseEntries_None entries overwriteSettings 0 ∅) as Hnone.
  rewrite Nat.sub_0_r in Hnone. rewrite <- Hnone by lia.
  unfold BulkCreate.
  by destruct (parseEntries _ _ _ _) as [[err|parsed]|].
Qed.

End MoreProperties.

(** * Properties of the store in S3 *)

Section S3Properties.
Context `{P : CronParser, L : StoreLibs, R : MapRange}.

Implicit Types (s : S3CronStore) (st : S3).

Lemma getEntriesData_inr s key st data st' :
  getEntriesData s key st = (inr data, st')
  ↔ GetObject (bucket s) key st = (inr (inr data), st').
Proof.
  unfold getEntriesData.
  destruct (GetObject (bucket s) key st) as [[[code msg|msg]|[msg|d]] st1];
    try case_decide; split; intros [= <- <-] || intros [=]; done.
Qed.

Lemma getEntriesData_not_found s key st st' :
  getEntriesData s key st = (inl errEntriesFileNotFound, st')
  ↔ ∃ msg, GetObject (bucket s) key st
           = (inl (awsError ErrCodeNoSuchKey msg), st').
Proof.
  unfold getEntriesData.
  destruct (GetObject (bucket s) key st) as [[[code msg|msg]|[msg|d]] st1];
    try case_decide; subst; split;
    try (intros [= <-]; by eexists); try (by intros [=]);
    try (by intros [m [=]]).
  by intros [m [= _ <-]].
Qed.

(** X16. GetScanEntries and GetReportEntries of the S3 store return a
    table in exactly two cases: the client reports that the object of the
    type's key does not exist, and the table is empty; or the client
    returns the object, its body is read and encoding/json decodes it
    into the table.  Every other failure (another error of the client, a
    failed read, content that does not decode) is returned as an error
    and never as an empty table. *)
Theorem s3_get_entries_ok s st st' :
  (∀ m, s3GetScanEntries s st = (inr m, st')
        ↔ (m = ∅ ∧ ∃ msg, GetObject (bucket s) (scanCronKey s) st
                          = (inl (awsError ErrCodeNoSuchKey msg), st'))
          ∨ (∃ data, GetObject (bucket s) (scanCronKey s) st
                     = (inr (inr data), st')
                     ∧ UnmarshalScans data = inr m))
  ∧ (∀ m, s3GetReportEntries s st = (inr m, st')
          ↔ (m = ∅ ∧ ∃ msg, GetObject (bucket s) (reportCronKey s) st
                            = (inl (awsError ErrCodeNoSuchKey msg), st'))
            ∨ (∃ data, GetObject (bucket s) (reportCronKey s) st
                       = (inr (inr data), st')
                       ∧ UnmarshalReports data = inr m)).
Proof.
  split; intros m.
  - rewrite <- getEntriesData_not_found.
    setoid_rewrite <- getEntriesData_inr. unfold s3GetScanEntries.
    destruct (getEntriesData s (scanCronKey s) st) as [[err|data] st1].
    + destruct err; split;
        try (intros [= <- <-]; by left);
        try (by intros [=]);
        try (by intros [[_ [=]]|(? & [=] & _)]).
      intros [[-> [= <-]]|(? & [=] & _)]. done.
    + destruct (UnmarshalScans data) as [msg|m'] eqn:Hdec; split.
      * by intros [=].
      * intros [[_ [=]]|(? & [= <- <-] & ?)]. congruence.
      * intros [= <- <-]. right. by exists data.
      * intros [[_ [=]]|(? & [= <- <-] & ?)]. congruence.
  - rewrite <- getEntriesData_not_found.
    setoid_rewrite <- getEntriesData_inr. unfold s3GetReportEntries.
    destruct (getEntriesData s (reportCronKey s) st) as [[err|data] st1].
    + destruct err; split;
        try (intros [= <- <-]; by left);
        try (by intros [=]);
        try (by intros [[_ [=]]|(? & [=] & _)]).
      intros [[-> [= <-]]|(? & [=] & _)]. done.
    + destruct (UnmarshalReports data) as [msg|m'] eqn:Hdec; split.
      * by intros [=].
      * intros [[_ [=]]|(? & [= <- <-] & ?)]. congruence.
      * intros [= <- <-]. right. by exists data.
      * intros [[_ [=]]|(? & [= <- <-] & ?)]. congruence.
Qed.

(** X17. What SaveScanEntries writes, GetScanEntries reads back, and the
    same for the report entries: when encoding/json decodes what it
    encoded, the client accepts the write under the type's key and then
    returns the written object under that key, the store returns the
    saved table. *)
Theorem s3_save_then_get s st st1 st2 :
  (∀ m content,
     MarshalScans m = inr content →
     UnmarshalScans content = inr m →
     PutObject (bucket s) (scanCronKey s) content st = (None, st1) →
     GetObject (bucket s) (scanCronKey s) st1 = (inr (inr content), st2) →
     s3SaveScanEntries s m st = (None, st1)
     ∧ s3GetScanEntries s st1 = (inr m, st2))
  ∧ (∀ m content,
       MarshalReports m = inr content →
       UnmarshalReports content = inr m →
       PutObject (bucket s) (reportCronKey s) content st = (None, st1) →
       GetObject (bucket s) (reportCronKey s) st1 = (inr (inr content), st2) →
       s3SaveReportEntries s m st = (None, st1)
       ∧ s3GetReportEntries s st1 = (inr m, st2)).
Proof.
  split; intros m content Henc Hdec Hput Hget.
  - unfold s3SaveScanEntries, saveEntries, s3GetScanEntries, getEntriesData.
    by rewrite Henc, Hput, Hget, Hdec.
  - unfold s3SaveReportEntries, saveEntries, s3GetReportEntries,
      getEntriesData.
    by rewrite Henc, Hput, Hget, Hdec.
Qed.

(** X18. Cold start on the S3 store.  When the client reports that
    neither the object of the scan entries nor the object of the report
    entries exists, Start of a new orchestrator succeeds with two empty
    tables, and the scheduler receives the call that starts its clock and
    no other.  The first entry then saved creates the object: SaveEntry
    of a valid scan entry puts the encoding of the table that holds this
    one entry under the key of the scan entries, and succeeds when the
    client accepts it. *)
Theorem Start_cold_on_s3 s cfg st msg1 st1 msg2 st2 :
  GetObject (bucket s) (scanCronKey s) st
  = (inl (awsError ErrCodeNoSuchKey msg1), st1) →
  GetObject (bucket s) (reportCronKey s) st1
  = (inl (awsError ErrCodeNoSuchKey msg2), st2) →
  ∃ c',
    Start (S := s3CronStore s) (NewCrontinuous (S := s3CronStore s) cfg st)
    = (None, c')
    ∧ scanEntries c' = ∅
    ∧ reportEntries c' = ∅
    ∧ storage c' = st2
    ∧ cron c' = [cron_Start]
    ∧ ∀ se sch content st3,
        ParseStandard (CronSpec se) = inr sch →
        MarshalScans {[ProgramID se := se]} = inr content →
        PutObject (bucket s) (scanCronKey s) content st2 = (None, st3) →
        ∃ c'',
          SaveEntry (S := s3CronStore s) ScanCronType (OfScan se) c'
          = (None, c'')
          ∧ scanEntries c'' = {[ProgramID se := se]}
          ∧ storage c'' = st3.
Proof.
  intros Hscan Hreport.
  eexists. split.
  - unfold Start, buildScanEntries, buildReportEntries. simpl.
    unfold s3GetScanEntries, s3GetReportEntries, getEntriesData.
    rewrite Hscan. rewrite decide_True by done. simpl.
    rewrite range_empty. simpl.
    rewrite Hreport. rewrite decide_True by done. simpl.
    rewrite range_empty. simpl. reflexivity.
  - do 4 (split; [done|]).
    intros se sch content st3 Hparse Henc Hput.
    unfold SaveEntry, saveScanEntry. simpl. rewrite Hparse. simpl.
    unfold s3SaveScanEntries, saveEntries. rewrite insert_empty, Henc, Hput.
    simpl. destruct (negb _); by eexists.
Qed.

End S3Properties.

(** * Properties of the HTTP handlers *)

Section HandlerProperties.
Context `{P : CronParser, S : CronStore, R : MapRange, H : HTTPLibs}.

Implicit Types (c : Crontinuous) (typ : CronType) (e : CronEntry).

(** ** The bulk handlers *)





(** ** The setting handlers *)



(** ** The remove handlers *)



(** ** The read handlers *)

(** X22. The read handlers never change a table, the store or the
    scheduler.  The handlers of one entry answer an empty id with status
    400, an id that is not in the table of the type with status 404, and
    an id that is in the table with the encoding of its entry.  The
    handlers of all the entries answer with the encoding of a list that
    holds each entry of the table of the type once.  An entry or a list
    that the encoder rejects is answered with status 500. *)
Theorem read_handlers_answer id c :
  (id = "" →
   getScanScheduleByIDHandler id c = (httpError "Bad request" 400, c)
   ∧ getReportScheduleByIDHandler id c = (httpError "Bad request" 400, c))
  ∧ (id ≠ "" →
     getScanScheduleByIDHandler id c
     = (match scanEntries c !! id with
        | None => httpNotFound
        | Some se =>
            match EncodeEntry (OfScan se) with
            | inl msg => httpError msg 500
            | inr body => written body
            end
        end, lock_scanMux RLock c)
     ∧ getReportScheduleByIDHandler id c
       = (match reportEntries c !! id with
          | None => httpNotFound
          | Some re =>
              match EncodeEntry (OfReport re) with
              | inl msg => httpError msg 500
              | inr body => written body
              end
          end, lock_reportMux RLock c))
  ∧ (∃ entries,
       entries ≡ₚ OfScan <$> (map_to_list (scanEntries c)).*2
       ∧ getScanSchedulesHandler c
         = (match EncodeEntries entries with
            | inl msg => httpError msg 500
            | inr body => written body
            end, lock_scanMux RLock c))
  ∧ (∃ entries,
       entries ≡ₚ OfReport <$> (map_to_list (reportEntries c)).*2
       ∧ getReportSchedulesHandler c
         = (match EncodeEntries entries with
            | inl msg => httpError msg 500
            | inr body => written body
            end, lock_reportMux RLock c)).
Proof.
  unfold getScanScheduleByIDHandler, getReportScheduleByIDHandler,
    getScheduleByIDHandler, GetEntryByID, getScanEntryByID,
    getReportEntryByID, getScanSchedulesHandler, getReportSchedulesHandler,
    getSchedulesHandler, GetEntries, getScanEntries, getReportEntries.
  split; [by intros ->|]. split; [|split].
  - intros Hid. cbv zeta. rewrite !(decide_False (P := id = "")) by done.
    simpl. split.
    + destruct (scanEntries c !! id) as [se|]; simpl; [|done].
      destruct (EncodeEntry (OfScan se)); reflexivity.
    + destruct (reportEntries c !! id) as [re|]; simpl; [|done].
      destruct (EncodeEntry (OfReport re)); reflexivity.
  - simpl. exists ((λ kv, OfScan kv.2) <$> range (scanEntries c)). split.
    + rewrite range_perm. by rewrite <- list_fmap_compose.
    + rewrite (foldl_snoc_fmap (λ kv, OfScan kv.2)). simpl.
      by destruct (EncodeEntries _).
  - simpl. exists ((λ kv, OfReport kv.2) <$> range (reportEntries c)). split.
    + rewrite range_perm. by rewrite <- list_fmap_compose.
    + rewrite (foldl_snoc_fmap (λ kv, OfReport kv.2)). simpl.
      by destruct (EncodeEntries _).
Qed.

End HandlerProperties.

(** * The further properties on concrete inputs *)

Section MoreExamples.
#[local] Existing Instances fiveFieldParser memCronStore listRange.
Import Sample SampleLibs.
Open Scope string_scope.

Lemma isTeamWhitelisted_spec_witness :
  (EnableTeamsWhitelistScan onlyT1 = false
   ∨ "t1" ∈ TeamsWhitelistScan onlyT1)
  ∧ isTeamWhitelisted onlyT1 ScanCronType "t1" = true
  ∧ isTeamWhitelisted onlyT1 ReportCronType "t2" ≠ true
  ∧ (7 : CronType) ≠ ScanCronType
  ∧ (7 : CronType) ≠ ReportCronType
  ∧ isTeamWhitelisted onlyT1 7 "t2" = true.
Proof.
  destruct (isTeamWhitelisted_spec onlyT1 "t1") as (Hscan & _ & _).
  destruct (isTeamWhitelisted_spec onlyT1 "t2") as (_ & Hreport & Hother).
  assert (EnableTeamsWhitelistScan onlyT1 = false
          ∨ "t1" ∈ TeamsWhitelistScan onlyT1) as Hin by (right; by left).
  split; [done|]. split; [by apply Hscan|]. split.
  { intros [[=]|Hin2]%Hreport. simpl in Hin2.
    apply list_elem_of_singleton in Hin2. discriminate. }
  assert ((7 : CronType) ≠ ScanCronType) as Hs by done.
  assert ((7 : CronType) ≠ ReportCronType) as Hr by done.
  do 2 (split; [done|]). by apply Hother.
Defined.

Lemma writes_leave_other_entries_witness :
  let c := running noWhitelist emptyStore in
  let e := OfScan (scanB "* * * * *") in
  (ReportCronType ≠ ScanCronType ∨ "t1" ≠ GetID e)
  ∧ stored ReportCronType (SaveEntry ScanCronType e c).2 "t1"
    = stored ReportCronType c "t1"
  ∧ stored ScanCronType (SaveEntry ScanCronType e c).2 "a"
    = stored ScanCronType c "a"
  ∧ stored ReportCronType (RemoveEntry ScanCronType "a" c).2 "t1"
    = stored ReportCronType c "t1"
  ∧ ∃ r c',
      BulkCreate ScanCronType [e] [true] c = Some (r, c')
      ∧ stored ReportCronType c' "t1" = stored ReportCronType c "t1".
Proof.
  intros c e.
  destruct (writes_leave_other_entries ScanCronType c)
    as (Hsave & Hremove & Hbulk).
  assert (ReportCronType ≠ ScanCronType) as Hne by done.
  split; [by left|]. split; [apply Hsave; by left|].
  split; [apply Hsave; by right|]. split; [apply Hremove; by left|].
  destruct (BulkCreate ScanCronType [e] [true] c) as [[r c']|] eqn:Hb;
    [|by vm_compute in Hb].
  exists r, c'. split; [done|]. by apply (Hbulk _ _ _ _ _ _ Hne Hb).
Defined.

Lemma RemoveEntry_present_witness :
  let c := running noWhitelist emptyStore in
  let e := OfScan (scanA "*/2 * * * *") in
  stored ScanCronType c "a" = Some e
  ∧ ∃ r c',
      RemoveEntry ScanCronType "a" c = (r, c')
      ∧ stored ScanCronType c' "a" = None
      ∧ r = External <$> (persist ScanCronType c' (storage c)).1
      ∧ storage c' = (persist ScanCronType c' (storage c)).2
      ∧ cron c' = match r with
                  | Some _ => cron c
                  | None => (cron c ++ [cron_RemoveJob "a"])%list
                  end
      ∧ (GetEntryByID ScanCronType "a" c').1 = inl ErrScheduleNotFound.
Proof.
  intros c e.
  assert (stored ScanCronType c "a" = Some e) as Hst
    by (vm_compute; reflexivity).
  split; [done|].
  apply (RemoveEntry_present ScanCronType "a" c e); [by left|done].
Defined.

Lemma writes_keep_tables_keyed_witness :
  let c := running noWhitelist emptyStore in
  wellKeyed c
  ∧ wellKeyed (SaveEntry ScanCronType (OfScan (scanB "* * * * *")) c).2
  ∧ wellKeyed (RemoveEntry ScanCronType "a" c).2
  ∧ wellKeyed (NewCrontinuous noWhitelist emptyStore).
Proof.
  intros c. assert (wellKeyed c) as Hwk by compute_done.
  destruct (writes_keep_tables_keyed c Hwk) as (Hsave & Hremove & _ & Hnew).
  split; [done|]. split; [apply Hsave|]. split; [apply Hremove|apply Hnew].
Defined.

Lemma errors_of_operations_witness :
  let c := running noWhitelist emptyStore in
  let wrong := OfReport (reportT "t3" "* * * * *") in
  (SaveEntry ScanCronType wrong c).1 = Some ErrMalformedEntry
  ∧ (ErrMalformedEntry = ErrMalformedSchedule
     ∨ ErrMalformedEntry = ErrInvalidCronType
     ∨ ErrMalformedEntry = ErrMalformedEntry
     ∨ ∃ msg, ErrMalformedEntry = External msg).
Proof.
  intros c wrong.
  assert ((SaveEntry ScanCronType wrong c).1 = Some ErrMalformedEntry)
    as Herr by (vm_compute; reflexivity).
  split; [done|].
  destruct (errors_of_operations ScanCronType c ErrMalformedEntry)
    as (Hsave & _). by apply (Hsave wrong).
Defined.



Lemma SaveEntry_then_RemoveEntry_witness :
  let c := running noWhitelist emptyStore in
  let e := OfScan (scanB "* * * * *") in
  let c1 := (SaveEntry ScanCronType e c).2 in
  SaveEntry ScanCronType e c = (None, c1)
  ∧ stored ScanCronType c (GetID e) = None
  ∧ ∃ r c2,
      RemoveEntry ScanCronType (GetID e) c1 = (r, c2)
      ∧ r ≠ Some ErrScheduleNotFound
      ∧ stored ScanCronType c2 (GetID e) = None
      ∧ scanEntries c2 = scanEntries c
      ∧ reportEntries c2 = reportEntries c.
Proof.
  intros c e c1.
  assert (SaveEntry ScanCronType e c = (None, c1)) as Hsave
    by (vm_compute; reflexivity).
  assert (stored ScanCronType c (GetID e) = None) as Hnew
    by (vm_compute; reflexivity).
  do 2 (split; [done|]).
  destruct (SaveEntry_then_RemoveEntry ScanCronType e c c1 Hsave)
    as (r & c2 & Hrem & Hnf & Hgone & Hback).
  destruct (Hback Hnew) as [Hs Hr]. by exists r, c2.
Defined.


Lemma Start_store_failure_witness :
  let down := {| scanReadFails := true; reportReadFails := true |} in
  let half := {| scanReadFails := false; reportReadFails := true |} in
  (∃ c',
     Start (S := flakyCronStore)
       (NewCrontinuous (S := flakyCronStore) noWhitelist down)
     = (Some (External "GetObject failed"), c')
     ∧ scanEntries c' = ∅
     ∧ reportEntries c' = ∅
     ∧ cron c' = cron_New)
  ∧ (∃ c',
       Start (S := flakyCronStore)
         (NewCrontinuous (S := flakyCronStore) noWhitelist half)
       = (Some (External "GetObject failed"), c')
       ∧ scanEntries c' = {[ "a" := scanA "*/2 * * * *" ]}
       ∧ reportEntries c' = ∅
       ∧ cron c' = cron_New).
Proof.
  intros down half. split.
  - destruct (Start_store_failure (S := flakyCronStore)
                (NewCrontinuous (S := flakyCronStore) noWhitelist down))
      as [Hscan _].
    by apply (Hscan "GetObject failed" down).
  - destruct (Start_store_failure (S := flakyCronStore)
                (NewCrontinuous (S := flakyCronStore) noWhitelist half))
      as [_ Hreport].
    apply (Hreport {[ "a" := scanA "*/2 * * * *" ]} half
             "GetObject failed" half); [done| |done].
    intros k se Hk _. apply lookup_singleton_Some in Hk as [<- <-].
    compute_done.
Defined.


Lemma BulkCreate_empty_batch_witness :
  let c := running noWhitelist brokenStore in
  wellKeyed c
  ∧ ∃ c',
      BulkCreate ScanCronType [] [] c
      = Some (Some (External "PutObject failed"), c')
      ∧ scanEntries c' = scanEntries c
      ∧ reportEntries c' = reportEntries c
      ∧ cron c' = cron c.
Proof.
  intros c. assert (wellKeyed c) as Hwk by compute_done.
  split; [done|].
  destruct (BulkCreate_empty_batch ScanCronType [] c (or_introl eq_refl) Hwk)
    as (c' & Hbulk & Hs & Hr & _ & Hcron).
  by exists c'.
Defined.


Example BulkCreate_registers_only_written :
  let c := running onlyT1 emptyStore in
  let entries :=
    [OfScan (scanA "*/9 * * * *"); OfScan (scanB "*/3 * * * *");
     OfScan {| ProgramID := "n"; TeamID := "t1"; CronSpec := "* * * * *" |}] in
  ∃ c',
    BulkCreate ScanCronType entries [false; true; false] c = Some (None, c')
    ∧ cron c'
      = (cron c ++ [cron_Schedule "* * * * *" (scanJob "n" "t1") "n"])%list.
Proof. intros c entries. eexists. split; vm_compute; reflexivity. Qed.

Lemma s3_get_entries_ok_witness :
  GetObject (StoreLibs := memLibs) "bucket" "crontab.json" ∅
  = (inl (awsError "NoSuchKey" "The specified key does not exist."), ∅)
  ∧ s3GetScanEntries (L := memLibs) crontabStore ∅ = (inr ∅, ∅).
Proof.
  assert (GetObject (StoreLibs := memLibs) "bucket" "crontab.json" ∅
          = (inl (awsError "NoSuchKey" "The specified key does not exist."),
             ∅)) as Hget by reflexivity.
  split; [done|].
  destruct (s3_get_entries_ok (L := memLibs) crontabStore ∅ ∅) as [Hscan _].
  apply Hscan. left. split; [done|]. by eexists.
Defined.

Lemma s3_save_then_get_witness :
  let m : gmap string ScanEntry := {[ "a" := scanA "*/2 * * * *" ]} in
  let st1 : S3 (StoreLibs := memLibs) := {[ "bucket/crontab.json" := inl m ]} in
  MarshalScans (StoreLibs := memLibs) m = inr (inl m)
  ∧ UnmarshalScans (StoreLibs := memLibs) (inl m) = inr m
  ∧ PutObject (StoreLibs := memLibs) "bucket" "crontab.json" (inl m) ∅
    = (None, st1)
  ∧ GetObject (StoreLibs := memLibs) "bucket" "crontab.json" st1
    = (inr (inr (inl m)), st1)
  ∧ s3SaveScanEntries (L := memLibs) crontabStore m ∅ = (None, st1)
  ∧ s3GetScanEntries (L := memLibs) crontabStore st1 = (inr m, st1).
Proof.
  intros m st1.
  assert (PutObject (StoreLibs := memLibs) "bucket" "crontab.json" (inl m) ∅
          = (None, st1)) as Hput
    by (unfold st1; simpl; by rewrite insert_empty).
  assert (GetObject (StoreLibs := memLibs) "bucket" "crontab.json" st1
          = (inr (inr (inl m)), st1)) as Hget
    by (unfold st1; simpl; by rewrite lookup_singleton_eq).
  do 2 (split; [reflexivity|]). do 2 (split; [done|]).
  destruct (s3_save_then_get (L := memLibs) crontabStore ∅ st1 st1)
    as [Hscan _].
  by apply (Hscan m (inl m)).
Defined.

Lemma Start_cold_on_s3_witness :
  let se := scanA "*/2 * * * *" in
  let st3 : S3 (StoreLibs := memLibs) :=
    {[ "bucket/crontab.json" := inl {[ "a" := se ]} ]} in
  ∃ c',
    Start (S := s3CronStore (L := memLibs) crontabStore)
      (NewCrontinuous (S := s3CronStore (L := memLibs) crontabStore)
         noWhitelist ∅)
    = (None, c')
    ∧ scanEntries c' = ∅
    ∧ reportEntries c' = ∅
    ∧ cron c' = [cron_Start]
    ∧ ∃ c'',
        SaveEntry (S := s3CronStore (L := memLibs) crontabStore)
          ScanCronType (OfScan se) c'
        = (None, c'')
        ∧ scanEntries c'' = {[ "a" := se ]}
        ∧ storage c'' = st3.
Proof.
  intros se st3.
  assert (GetObject (StoreLibs := memLibs) (bucket crontabStore)
            (scanCronKey crontabStore) ∅
          = (inl (awsError (ErrCodeNoSuchKey (StoreLibs := memLibs))
                    "The specified key does not exist."), ∅)) as Hscan
    by (vm_compute; reflexivity).
  assert (GetObject (StoreLibs := memLibs) (bucket crontabStore)
            (reportCronKey crontabStore) ∅
          = (inl (awsError (ErrCodeNoSuchKey (StoreLibs := memLibs))
                    "The specified key does not exist."), ∅)) as Hreport
    by (vm_compute; reflexivity).
  destruct (Start_cold_on_s3 (L := memLibs) crontabStore noWhitelist ∅
              _ ∅ _ ∅ Hscan Hreport)
    as (c' & Hstart & Hs & Hr & Hst & Hcron & Hfirst).
  exists c'. do 4 (split; [done|]).
  apply (Hfirst se "*/2 * * * *" (inl {[ "a" := se ]})).
  - by vm_compute.
  - reflexivity.
  - unfold st3. simpl. by rewrite insert_empty.
Defined.




Lemma read_handlers_answer_witness :
  let c := running noWhitelist emptyStore in
  "a" ≠ ""
  ∧ getScanScheduleByIDHandler (H := sampleHTTP) "" c
    = (httpError "Bad request" 400, c)
  ∧ getScanScheduleByIDHandler (H := sampleHTTP) "a" c
    = (written (H := sampleHTTP) [OfScan (scanA "*/2 * * * *")],
       lock_scanMux RLock c)
  ∧ getReportScheduleByIDHandler (H := sampleHTTP) "a" c
    = (httpNotFound, lock_reportMux RLock c).
Proof.
  intros c. assert ("a" ≠ "") as Ha by done.
  split; [done|]. split; [|split].
  - destruct (read_handlers_answer (H := sampleHTTP) "" c) as [Hempty _].
    by destruct (Hempty eq_refl) as [Hs _].
  - destruct (read_handlers_answer (H := sampleHTTP) "a" c) as (_ & Hid & _).
    destruct (Hid Ha) as [Hs _]. rewrite Hs. reflexivity.
  - destruct (read_handlers_answer (H := sampleHTTP) "a" c) as (_ & Hid & _).
    destruct (Hid Ha) as [_ Hr]. rewrite Hr. reflexivity.
Defined.

Lemma BulkCreate_panics_witness :
  let c := running noWhitelist emptyStore in
  let good := OfScan (scanB "* * * * *") in
  let bad := OfScan (scanB "every minute") in
  ((length [true] < length [good; good; bad])%nat
   ∧ Forall parses (take 2 [good; good; bad]))
  ∧ BulkCreate ScanCronType [good; good; bad] [true] c = None
  ∧ ¬ ((length [true] < length [good; bad; good])%nat
       ∧ Forall parses (take 2 [good; bad; good]))
  ∧ BulkCreate ScanCronType [good; bad; good] [true] c ≠ None.
Proof.
  intros c good bad.
  assert ((length [true] < length [good; good; bad])%nat
          ∧ Forall parses (take 2 [good; good; bad])) as Hshort
    by (split; [simpl; lia|compute_done]).
  assert (¬ ((length [true] < length [good; bad; good])%nat
             ∧ Forall parses (take 2 [good; bad; good]))) as Hbad
    by (intros [_ Hall]; revert Hall; compute_done).
  split; [done|].
  split; [by apply (BulkCreate_panics ScanCronType [good; good; bad] [true] c)|].
  split; [done|].
  intros Hnone. apply Hbad.
  by apply (BulkCreate_panics ScanCronType [good; bad; good] [true] c).
Defined.

End MoreExamples.
